(** * koding/logging: a leveled logger with pluggable handlers

    A shallow embedding of [logging.go].  Go strings are byte strings and are
    modelled by Rocq's [string]; [int] values ([Level], [Color], line
    numbers) are modelled in [Z], no arithmetic is done on them by the
    package.  Effects (writes to an [io.Writer], syslog submissions, panics,
    [os.Exit]) are threaded through an explicit [World]. *)

From Stdlib Require Import ZArith Strings.String Strings.Ascii List Lia Bool.
From Stdlib Require Import Numbers.DecimalString.
From stdpp Require Import base option list gmap.

Open Scope string_scope.
Open Scope Z_scope.

(** ** Byte constants *)

(** The line feed and escape bytes ([\n] and [\033] in the Go source). *)
Definition LF_byte : ascii := ascii_of_nat 10.
Definition ESC_byte : ascii := ascii_of_nat 27.
Definition LF : string := String LF_byte EmptyString.
Definition ESC : string := String ESC_byte EmptyString.

(** ** The part of the Go standard library the package calls *)

Module strings.

(** [strings.HasSuffix]:
    [len(s) >= len(suffix) && s[len(s)-len(suffix):] == suffix]. *)
Definition HasSuffix (s suffix : string) : bool :=
  (String.length suffix <=? String.length s)%nat
  && String.eqb
       (substring (String.length s - String.length suffix)
                  (String.length suffix) s)
       suffix.

End strings.

Module strconv.

(** [strconv.Itoa]: the decimal rendering of an integer. *)
Definition Itoa (n : Z) : string := NilZero.string_of_int (Z.to_int n).

End strconv.

Module utf8.

(** A byte [10xxxxxx] continues a multi-byte rune. *)
Definition continuation (c : ascii) : bool :=
  match c with
  | Ascii _ _ _ _ _ _ false true => true
  | _ => false
  end.

(** [utf8.RuneCountInString], for well-formed UTF-8: the bytes that start
    a rune. *)
Fixpoint RuneCountInString (s : string) : nat :=
  match s with
  | EmptyString => O
  | String c s' =>
      if continuation c then RuneCountInString s'
      else S (RuneCountInString s')
  end.

End utf8.

(** *** [fmt]

    [Sprintf] is modelled for operands that are strings or ints and for the
    directives the package and its callers' plain messages use: literal
    text, [%%], and [%s], [%d], [%v] with an optional [-] flag and an
    optional decimal width that does not start with [0].  The error
    renderings of [fmt] on these are kept: a verb the operand does not
    support, a missing operand, surplus operands and a format that ends
    inside a directive.  Go reads [# 0 + space] after the percent sign as
    flags, [.] as a precision, [*] and [[n]] as width and argument index;
    the scanner below takes such a byte for the verb (and a leading [0] for
    a width), so on a format with one of them, with a non-ASCII verb or
    with one of the verbs [b c o O q x X U T], its output is not Go's.
    [inFragment] below says when a format stays within the directives
    modelled; a statement about what [Sprintf] returns for a caller's
    format holds of Go for such formats only. *)
Module fmt.

(** An operand passed as [interface{}]. *)
Inductive value : Type :=
| VString (s : string)
| VInt (n : Z).

(** [reflect.TypeOf(arg).String()] *)
Definition typeName (x : value) : string :=
  match x with
  | VString _ => "string"
  | VInt _ => "int"
  end.

(** The flags of one directive ([fmt.fmtFlags], with [wid]). *)
Record fmtFlags : Type := mkFlags {
  minus : bool;
  wid : option N;     (* [None]: [!widPresent] *)
}.

Definition clearflags : fmtFlags := mkFlags false None.

Fixpoint writePadding (n : nat) : string :=
  match n with
  | O => EmptyString
  | S n' => String " " (writePadding n')
  end.

(** [fmt.padString]: pad to the width, counted in runes; on the right
    with the [-] flag, on the left otherwise. *)
Definition padString (f : fmtFlags) (s : string) : string :=
  match wid f with
  | None => s
  | Some 0%N => s
  | Some n =>
      let width := (N.to_nat n - utf8.RuneCountInString s)%nat in
      if minus f then s ++ writePadding width
      else writePadding width ++ s
  end.

(** [printArg(arg, 'v')]: the default rendering of an operand. *)
Definition printValue (f : fmtFlags) (x : value) : string :=
  match x with
  | VString s => padString f s
  | VInt n => padString f (strconv.Itoa n)
  end.

Definition percentBangString : string := "%!".
Definition missingString : string := "(MISSING)".
Definition noVerbString : string := "%!(NOVERB)".
Definition extraString : string := "%!(EXTRA ".
Definition commaSpaceString : string := ", ".

(** [pp.badVerb] *)
Definition badVerb (f : fmtFlags) (verb : ascii) (x : value) : string :=
  percentBangString ++ String verb "(" ++ typeName x ++ "="
    ++ printValue f x ++ ")".

(** [pp.printArg], by operand type and verb. *)
Definition printArg (f : fmtFlags) (verb : ascii) (x : value) : string :=
  match x with
  | VString _ =>
      if Ascii.eqb verb "v" || Ascii.eqb verb "s" then printValue f x
      else badVerb f verb x
  | VInt _ =>
      if Ascii.eqb verb "v" || Ascii.eqb verb "d" then printValue f x
      else badVerb f verb x
  end.

(** The report of operands no directive consumed. *)
Fixpoint extraList (a : list value) : string :=
  match a with
  | [] => EmptyString
  | [x] => typeName x ++ "=" ++ printValue clearflags x
  | x :: a' =>
      typeName x ++ "=" ++ printValue clearflags x ++ commaSpaceString
        ++ extraList a'
  end.

Definition extraArgs (a : list value) : string :=
  match a with
  | [] => EmptyString
  | _ => extraString ++ extraList a ++ ")"
  end.

Definition isDigit (c : ascii) : bool :=
  let n := N_of_ascii c in ((48 <=? n) && (n <=? 57))%N.

Definition digit (c : ascii) : N := (N_of_ascii c - 48)%N.

(** [tooLarge]: widths beyond a million are refused. *)
Definition tooLarge (x : N) : bool := (1000000 <? x)%N.

(** Where the scanner of [doPrintf] stands in the format. *)
Inductive scan : Type :=
| InText
| InFlags (minus : bool)
| InWidth (minus : bool) (wid : N).

(** One verb with its flags: [%%] takes no operand; another verb takes
    the next one, or reports that it is missing. *)
Definition doVerb (f : fmtFlags) (verb : ascii) (a : list value)
  : string * list value :=
  if Ascii.eqb verb "%" then ("%", a)
  else
    match a with
    | [] => (percentBangString ++ String verb missingString, [])
    | x :: a' => (printArg f verb x, a')
    end.

(** [pp.doPrintf]: the format is scanned left to right, [a] holds the
    operands from [argNum] on. *)
Fixpoint doPrintf (st : scan) (format : string) (a : list value)
  : string :=
  match format with
  | EmptyString =>
      match st with
      | InText => extraArgs a
      | _ => noVerbString ++ extraArgs a
      end
  | String c rest =>
      match st with
      | InText =>
          if Ascii.eqb c "%" then doPrintf (InFlags false) rest a
          else String c (doPrintf InText rest a)
      | InFlags m =>
          if Ascii.eqb c "-" then doPrintf (InFlags true) rest a
          else if isDigit c then doPrintf (InWidth m (digit c)) rest a
          else
            let (out, a') := doVerb (mkFlags m None) c a in
            out ++ doPrintf InText rest a'
      | InWidth m n =>
          if isDigit c then
            if tooLarge n then noVerbString ++ extraArgs a
            else doPrintf (InWidth m (n * 10 + digit c)) rest a
          else
            let (out, a') := doVerb (mkFlags m (Some n)) c a in
            out ++ doPrintf InText rest a'
      end
  end.

(** [fmt.Sprintf] *)
Definition Sprintf (format : string) (a : list value) : string :=
  doPrintf InText format a.

End fmt.

Import fmt (value, VString, VInt).

(** *** [time] *)
Module time.

(** A [time.Time], as far as its printed form needs it: the calendar
    fields down to the second, and [rest], what [String] prints after the
    seconds (fraction, zone offset, zone name, monotonic reading). *)
Record Time : Type := mkTime {
  Year : Z;
  Month : Z;
  Day : Z;
  Hour : Z;
  Minute : Z;
  Second : Z;
  rest : string;
}.

Fixpoint zeros (n : nat) : string :=
  match n with
  | O => EmptyString
  | S n' => String "0" (zeros n')
  end.

(** [appendInt]: the decimal form of [x], zero-padded to [width], after
    a minus sign when [x] is negative. *)
Definition appendInt (x : Z) (width : nat) : string :=
  let digits := strconv.Itoa (Z.abs x) in
  (if x <? 0 then "-" else EmptyString)
    ++ zeros (width - String.length digits) ++ digits.

(** The layout [2006-01-02 15:04:05] that starts [Time.String]. *)
Definition dateTime (t : Time) : string :=
  appendInt (Year t) 4 ++ "-" ++ appendInt (Month t) 2 ++ "-"
    ++ appendInt (Day t) 2 ++ " " ++ appendInt (Hour t) 2 ++ ":"
    ++ appendInt (Minute t) 2 ++ ":" ++ appendInt (Second t) 2.

(** [Time.String], which [fmt.Sprint] calls on a [time.Time]. *)
Definition Time_String (t : Time) : string := dateTime t ++ rest t.

(** A time the clock can read: a four-digit year and calendar fields in
    their ranges. *)
Definition wellFormed (t : Time) : Prop :=
  0 <= Year t <= 9999 /\ 1 <= Month t <= 12 /\ 1 <= Day t <= 31
  /\ 0 <= Hour t <= 23 /\ 0 <= Minute t <= 59 /\ 0 <= Second t <= 59.

End time.

Abbreviation Time := time.Time.

(** *** [log/syslog] *)
Module syslog.

Inductive Priority : Type :=
| LOG_EMERG | LOG_ALERT | LOG_CRIT | LOG_ERR
| LOG_WARNING | LOG_NOTICE | LOG_INFO | LOG_DEBUG.

(** A [*syslog.Writer]: a connection to the log daemon, opened with a
    tag. *)
Record Writer : Type := mkWriter { tag : string }.

(** What the daemon has seen. *)
Inductive event : Type :=
| Message (tag : string) (p : Priority) (m : string)
| Disconnect (tag : string).

(** The severity methods of a [*syslog.Writer], as method values. *)
Inductive method : Type :=
| Emerg | Alert | Crit | Err | Warning | Notice | Info | Debug.

Definition severity (fn : method) : Priority :=
  match fn with
  | Emerg => LOG_EMERG
  | Alert => LOG_ALERT
  | Crit => LOG_CRIT
  | Err => LOG_ERR
  | Warning => LOG_WARNING
  | Notice => LOG_NOTICE
  | Info => LOG_INFO
  | Debug => LOG_DEBUG
  end.

End syslog.

(** ** Types and constants of the package *)

(** [type ( Color int; Level int )] *)
Abbreviation Color := Z (only parsing).
Abbreviation Level := Z (only parsing).

(** Colors for different log levels: [iota + 30]. *)
Definition BLACK : Color := 0 + 30.
Definition RED : Color := 1 + 30.
Definition GREEN : Color := 2 + 30.
Definition YELLOW : Color := 3 + 30.
Definition BLUE : Color := 4 + 30.
Definition MAGENTA : Color := 5 + 30.
Definition CYAN : Color := 6 + 30.
Definition WHITE : Color := 7 + 30.

(** Logging levels: [iota]. *)
Definition CRITICAL : Level := 0.
Definition ERROR : Level := 1.
Definition WARNING : Level := 2.
Definition NOTICE : Level := 3.
Definition INFO : Level := 4.
Definition DEBUG : Level := 5.

Definition LevelNames : gmap Z string :=
  {[ CRITICAL := "CRITICAL";
     ERROR := "ERROR";
     WARNING := "WARNING";
     NOTICE := "NOTICE";
     INFO := "INFO";
     DEBUG := "DEBUG" ]}.

Definition LevelColors : gmap Z Z :=
  {[ CRITICAL := MAGENTA;
     ERROR := RED;
     WARNING := YELLOW;
     NOTICE := GREEN;
     INFO := WHITE;
     DEBUG := CYAN ]}.

(** Indexing a Go map: the zero value of the element type for an absent
    key. *)
Definition LevelNames_at (l : Level) : string :=
  default EmptyString (LevelNames !! l).

Definition LevelColors_at (l : Level) : Color :=
  default 0 (LevelColors !! l).

(** The six enumerated levels. *)
Definition Levels : list Level :=
  [CRITICAL; ERROR; WARNING; NOTICE; INFO; DEBUG].

(** [Context] contains information about a log message. *)
Record Context : Type := mkContext {
  Context_Name : string;
  Context_Level : Level;
  Context_Time : Time;
  Context_Filename : string;
  Context_Line : Z;
}.

(** ** The world the package acts on *)

(** An [io.Writer] is the handle of a byte buffer. *)
Abbreviation io_Writer := nat (only parsing).

Definition os_Stdout : io_Writer := 1%nat.
Definition os_Stderr : io_Writer := 2%nat.

Record World : Type := mkWorld {
  streams : gmap nat string;        (* bytes written to each writer so far *)
  syslogd : list syslog.event;      (* what the log daemon received *)
  clock : Time;                     (* the reading of the wall clock *)
  callstack : list (string * Z);    (* file and line of the frames of the
                                       running goroutine as [logger.log]
                                       sees them: itself, its caller, ... *)
}.

(** How a call ends: it returns, it panics with a value its caller may
    recover, or the process ends ([os.Exit], or a panic no frame of the
    goroutine recovers). *)
Inductive Outcome : Type :=
| Returned (w : World)
| Panicked (v : string) (w : World)
| Terminated (status : Z) (w : World).

Abbreviation Action := (World -> Outcome).

(** Sequencing: the rest runs only after a return. *)
Definition andThen (o : Outcome) (k : Action) : Outcome :=
  match o with
  | Returned w => k w
  | _ => o
  end.

Notation "o >>= k" := (andThen o k) (at level 50, left associativity).

Definition world_of (o : Outcome) : World :=
  match o with
  | Returned w | Panicked _ w | Terminated _ w => w
  end.

(** The bytes a writer holds. *)
Definition stream (w : World) (wr : io_Writer) : string :=
  default EmptyString (streams w !! wr).

(** [wr.Write(p)]: the bytes are appended; the package ignores the error
    result. *)
Definition io_Write (wr : io_Writer) (p : string) (w : World) : World :=
  mkWorld (<[wr := stream w wr ++ p]> (streams w))
          (syslogd w) (clock w) (callstack w).

(** [time.Now()] *)
Definition time_Now (w : World) : Time := clock w.

(** [runtime.Caller(skip)]: file and line of the frame [skip] levels above
    the function that asks, [None] when [ok] is false. *)
Definition runtime_Caller (skip : nat) (w : World) : option (string * Z) :=
  callstack w !! skip.

(** A severity method of a syslog connection; the error result is
    ignored by the package. *)
Definition syslog_call (fn : syslog.method) (sw : syslog.Writer)
  (m : string) (w : World) : World :=
  mkWorld (streams w)
          (syslogd w ++ [syslog.Message (syslog.tag sw) (syslog.severity fn) m])
          (clock w) (callstack w).

(** [syslog.Writer.Close] *)
Definition syslog_Close (sw : syslog.Writer) (w : World) : World :=
  mkWorld (streams w) (syslogd w ++ [syslog.Disconnect (syslog.tag sw)])
          (clock w) (callstack w).

(** The panic of a call through a nil function value. *)
Definition nilDereference : string :=
  "runtime error: invalid memory address or nil pointer dereference".

(** ** Handlers *)

(** [Handler] is the main component of [Logger] that handles the output.
    The interface is modelled by its two methods, with the signature every
    implementation and every call of the package has:
    [Log(format string, args []interface{}, c *Context)] and [Close()]. *)
Record Handler : Type := mkHandler {
  Log : string -> list value -> Context -> Action;
  Close : Action;
}.

(** *** WriterHandler *)

(** [WriterHandler] writes the logging output to an [io.Writer]. *)
Record WriterHandler : Type := mkWriterHandler {
  WriterHandler_w : io_Writer;
}.

Definition NewWriterHandler (w : io_Writer) : WriterHandler :=
  mkWriterHandler w.

Definition prefix (c : Context) : string :=
  fmt.Sprintf "%s %s %-8s "
    [VString (substring 0 19 (time.Time_String (Context_Time c)));
     VString (Context_Name c);
     VString (LevelNames_at (Context_Level c))].

Definition WriterHandler_Log (b : WriterHandler) (format : string)
  (args : list value) (c : Context) : Action :=
  fun w =>
    Returned
      (io_Write (WriterHandler_w b) (prefix c ++ fmt.Sprintf format args) w).

Definition WriterHandler_Close (b : WriterHandler) : Action :=
  fun w => Returned w.

(** *** ConsoleHandler *)

Record ConsoleHandler : Type := mkConsoleHandler {
  ConsoleHandler_wb : WriterHandler;
}.

Definition NewConsoleHandler (w : io_Writer) : ConsoleHandler :=
  mkConsoleHandler (NewWriterHandler w).

Definition ConsoleHandler_Log (b : ConsoleHandler) (format : string)
  (args : list value) (c : Context) : Action :=
  fun w =>
    Returned
      (io_Write (WriterHandler_w (ConsoleHandler_wb b))
         (fmt.Sprintf (ESC ++ "[%dm")
            [VInt (LevelColors_at (Context_Level c))]) w)
    >>= WriterHandler_Log (ConsoleHandler_wb b) format args c
    >>= (fun w =>
          Returned
            (io_Write (WriterHandler_w (ConsoleHandler_wb b))
               (ESC ++ "[0m") w)).  (* reset color *)

Definition ConsoleHandler_Close (b : ConsoleHandler) : Action :=
  fun w => Returned w.

Definition StderrHandler : ConsoleHandler := NewConsoleHandler os_Stderr.
Definition StdoutHandler : ConsoleHandler := NewConsoleHandler os_Stdout.

(** *** SyslogHandler *)

(** [SyslogHandler] sends the logging output to syslog. *)
Record SyslogHandler : Type := mkSyslogHandler {
  SyslogHandler_w : syslog.Writer;
}.

(** The [switch] of [SyslogHandler.Log]: the method value assigned to
    [fn]; [None] is the nil [fn] of a level without a case. *)
Definition SyslogHandler_fn (level : Level) : option syslog.method :=
  if level =? CRITICAL then Some syslog.Crit
  else if level =? ERROR then Some syslog.Err
  else if level =? WARNING then Some syslog.Warning
  else if level =? NOTICE then Some syslog.Notice
  else if level =? INFO then Some syslog.Info
  else if level =? DEBUG then Some syslog.Debug
  else None.

Definition SyslogHandler_Log (b : SyslogHandler) (format : string)
  (args : list value) (c : Context) : Action :=
  fun w =>
    match SyslogHandler_fn (Context_Level c) with
    | Some fn =>
        Returned
          (syslog_call fn (SyslogHandler_w b) (fmt.Sprintf format args) w)
    | None => Panicked nilDereference w
    end.

Definition SyslogHandler_Close (b : SyslogHandler) : Action :=
  fun w => Returned (syslog_Close (SyslogHandler_w b) w).

(** *** MultiHandler *)

(** [MultiHandler] sends the log output to multiple handlers
    concurrently. *)
Record MultiHandler : Type := mkMultiHandler {
  MultiHandler_handlers : list Handler;
}.

Definition NewMultiHandler (handlers : list Handler) : MultiHandler :=
  mkMultiHandler handlers.

(** The Go scheduler: given how many goroutines are runnable and the
    world, the index of the one that runs next.  Every result below holds
    for all schedulers. *)
Abbreviation Scheduler := (nat -> World -> nat).

(** The goroutines started by a [go func(...) { body; wg.Done() }] loop,
    up to [wg.Wait()].  [counter] is the count of the [sync.WaitGroup],
    [pending] the bodies of the goroutines not yet run.  The scheduler
    picks one; when its body returns, [wg.Done()] lowers the count.  A
    panic in a goroutine is recovered by no frame and ends the process
    with status 2, as does the deadlock of waiting for a goroutine that
    does not exist.  Each body runs as a unit: interleavings inside the
    bodies are not modelled. *)
Fixpoint wg_Wait (sched : Scheduler) (counter : nat)
  (pending : list Action) (w : World) : Outcome :=
  match counter with
  | O => Returned w
  | S counter' =>
      let i := (sched (length pending) w mod length pending)%nat in
      match pending !! i with
      | Some body =>
          match body w with
          | Returned w' => wg_Wait sched counter' (delete i pending) w'
          | Panicked _ w' => Terminated 2 w'
          | Terminated status w' => Terminated status w'
          end
      | None => Terminated 2 w
      end
  end.

Definition MultiHandler_Log (sched : Scheduler) (b : MultiHandler)
  (format : string) (args : list value) (ctx : Context) : Action :=
  wg_Wait sched (length (MultiHandler_handlers b))
    (map (fun handler => Log handler format args ctx)
         (MultiHandler_handlers b)).

Definition MultiHandler_Close (sched : Scheduler) (b : MultiHandler)
  : Action :=
  wg_Wait sched (length (MultiHandler_handlers b))
    (map (fun handler => Close handler) (MultiHandler_handlers b)).

(** *** The implementations as interface values *)

Definition WriterHandler_Handler (b : WriterHandler) : Handler :=
  mkHandler (WriterHandler_Log b) (WriterHandler_Close b).

Definition ConsoleHandler_Handler (b : ConsoleHandler) : Handler :=
  mkHandler (ConsoleHandler_Log b) (ConsoleHandler_Close b).

Definition SyslogHandler_Handler (b : SyslogHandler) : Handler :=
  mkHandler (SyslogHandler_Log b) (SyslogHandler_Close b).

Definition MultiHandler_Handler (sched : Scheduler) (b : MultiHandler)
  : Handler :=
  mkHandler (MultiHandler_Log sched b) (MultiHandler_Close sched b).

(** ** Logger implementation *)

(** [logger] is the default [Logger] implementation. *)
Record logger : Type := mkLogger {
  logger_Name : string;
  logger_Level : Level;
  logger_Handler : Handler;
}.

Definition DefaultLevel : Level := INFO.
Definition DefaultHandler : Handler := ConsoleHandler_Handler StderrHandler.

Definition NewLogger (name : string) : logger :=
  mkLogger name DefaultLevel DefaultHandler.

Definition logger_Close (l : logger) : Action := Close (logger_Handler l).

Definition logger_SetLevel (l : logger) (level : Level) : logger :=
  mkLogger (logger_Name l) level (logger_Handler l).

Definition logger_SetHandler (l : logger) (b : Handler) : logger :=
  mkLogger (logger_Name l) (logger_Level l) b.

(** Add missing newline at the end. *)
Definition addMissingNewline (format : string) : string :=
  if negb (strings.HasSuffix format LF) then format ++ LF else format.

Definition logger_log (l : logger) (level : Level) (format : string)
  (args : list value) : Action :=
  fun w =>
    let format := addMissingNewline format in
    let '(file, line) :=
      match runtime_Caller 2 w with
      | Some (file, line) => (file, line)
      | None => ("???", 0)
      end in
    let ctx :=
      mkContext (logger_Name l) level (time_Now w) file line in
    Log (logger_Handler l) format args ctx w.

Definition logger_Critical (l : logger) (format : string)
  (args : list value) : Action :=
  fun w =>
    if logger_Level l >=? CRITICAL then logger_log l CRITICAL format args w
    else Returned w.

Definition logger_Error (l : logger) (format : string)
  (args : list value) : Action :=
  fun w =>
    if logger_Level l >=? ERROR then logger_log l ERROR format args w
    else Returned w.

Definition logger_Warning (l : logger) (format : string)
  (args : list value) : Action :=
  fun w =>
    if logger_Level l >=? WARNING then logger_log l WARNING format args w
    else Returned w.

Definition logger_Notice (l : logger) (format : string)
  (args : list value) : Action :=
  fun w =>
    if logger_Level l >=? NOTICE then logger_log l NOTICE format args w
    else Returned w.

Definition logger_Info (l : logger) (format : string)
  (args : list value) : Action :=
  fun w =>
    if logger_Level l >=? INFO then logger_log l INFO format args w
    else Returned w.

Definition logger_Debug (l : logger) (format : string)
  (args : list value) : Action :=
  fun w =>
    if logger_Level l >=? DEBUG then logger_log l DEBUG format args w
    else Returned w.

(** [Fatal] is equivalent to [l.Critical] followed by a call to
    [os.Exit(1)]. *)
Definition logger_Fatal (l : logger) (format : string)
  (args : list value) : Action :=
  fun w =>
    logger_Critical l format args w
    >>= logger_Close l
    >>= (fun w => Terminated 1 w).

(** [Panic] is equivalent to [l.Critical] followed by a call to
    [panic()]. *)
Definition logger_Panic (l : logger) (format : string)
  (args : list value) : Action :=
  fun w =>
    logger_Critical l format args w
    >>= logger_Close l
    >>= (fun w => Panicked (fmt.Sprintf format args) w).

Definition DefaultLogger : logger := NewLogger EmptyString.

(** The six leveled methods of a [Logger], to speak of them all at once. *)
Inductive Leveled : Type :=
| Critical | Error | Warning | Notice | Info | Debug.

Definition level_of (m : Leveled) : Level :=
  match m with
  | Critical => CRITICAL
  | Error => ERROR
  | Warning => WARNING
  | Notice => NOTICE
  | Info => INFO
  | Debug => DEBUG
  end.

Definition call (m : Leveled) : logger -> string -> list value -> Action :=
  match m with
  | Critical => logger_Critical
  | Error => logger_Error
  | Warning => logger_Warning
  | Notice => logger_Notice
  | Info => logger_Info
  | Debug => logger_Debug
  end.

(** ** Vocabulary of the statements *)

(** The last byte of a string. *)
Fixpoint lastByte (s : string) : option ascii :=
  match s with
  | EmptyString => None
  | String c EmptyString => Some c
  | String _ s' => lastByte s'
  end.

(** A string that ends in exactly one newline. *)
Definition endsInOneNewline (s : string) : Prop :=
  strings.HasSuffix s LF = true /\ strings.HasSuffix s (LF ++ LF) = false.

(** A format without any directive. *)
Fixpoint plain (format : string) : bool :=
  match format with
  | EmptyString => true
  | String c rest => negb (Ascii.eqb c "%") && plain rest
  end.

(** The verbs modelled: [%%], [%s], [%d], [%v]. *)
Definition modelledVerb (c : ascii) : bool :=
  Ascii.eqb c "%" || Ascii.eqb c "s" || Ascii.eqb c "d" || Ascii.eqb c "v".

(** [format] is made of literal text and of the directives modelled, on
    which the scanner above is Go's: after a percent sign come [-] signs,
    then a width that does not start with [0] and is not refused as too
    large, then one of the verbs [%], [s], [d], [v]; and the scan of
    [format] with operands [a] ends in literal text with every operand
    consumed. *)
Fixpoint inFragment (st : fmt.scan) (format : string) (a : list value)
  : bool :=
  match format with
  | EmptyString =>
      match st, a with
      | fmt.InText, [] => true
      | _, _ => false
      end
  | String c rest =>
      match st with
      | fmt.InText =>
          if Ascii.eqb c "%" then inFragment (fmt.InFlags false) rest a
          else inFragment fmt.InText rest a
      | fmt.InFlags m =>
          if Ascii.eqb c "-" then inFragment (fmt.InFlags true) rest a
          else if fmt.isDigit c then
            negb (Ascii.eqb c "0")
            && inFragment (fmt.InWidth m (fmt.digit c)) rest a
          else
            modelledVerb c
            && inFragment fmt.InText rest
                 (snd (fmt.doVerb (fmt.mkFlags m None) c a))
      | fmt.InWidth m n =>
          if fmt.isDigit c then
            negb (fmt.tooLarge n)
            && inFragment (fmt.InWidth m (n * 10 + fmt.digit c)) rest a
          else
            modelledVerb c
            && inFragment fmt.InText rest
                 (snd (fmt.doVerb (fmt.mkFlags m (Some n)) c a))
      end
  end.

(** Calls made one after the other by a single caller. *)
Fixpoint inTurn (calls : list Action) (w : World) : Outcome :=
  match calls with
  | [] => Returned w
  | c :: rest => c w >>= inTurn rest
  end.

(** Goroutine bodies run one after the other: the first that does not
    return ends the process. *)
Fixpoint runEach (bodies : list Action) (w : World) : Outcome :=
  match bodies with
  | [] => Returned w
  | body :: rest =>
      match body w with
      | Returned w' => runEach rest w'
      | Panicked _ w' => Terminated 2 w'
      | Terminated status w' => Terminated status w'
      end
  end.

(** The level name, left-justified in a field of eight bytes. *)
Definition levelField (level : Level) : string :=
  LevelNames_at level
    ++ fmt.writePadding (8 - String.length (LevelNames_at level)).

(** A logger that writes to a buffer. *)
Definition bufferLogger (name : string) (level : Level)
  (buffer : io_Writer) : logger :=
  mkLogger name level (WriterHandler_Handler (NewWriterHandler buffer)).

(** ** Fixtures of the examples *)

Definition noon : Time := time.mkTime 2024 3 9 12 0 5 ".25 +0000 UTC".

Definition world0 : World :=
  mkWorld ∅ [] noon
    [("logging.go", 160); ("logging.go", 215); ("main.go", 42)].

Definition svc (buffer : io_Writer) : logger :=
  logger_SetHandler (logger_SetLevel (NewLogger "svc") INFO)
    (WriterHandler_Handler (NewWriterHandler buffer)).

(** A handler that fails on every call. *)
Definition faultyHandler : Handler :=
  mkHandler (fun _ _ _ w => Panicked "sink failed" w)
            (fun w => Panicked "close failed" w).

(** A world whose stack holds no frame for the caller. *)
Definition shallowWorld : World :=
  mkWorld ∅ [] noon [("logging.go", 160)].

(** A handler that writes the call site before the message. *)
Definition siteHandler (buffer : io_Writer) : Handler :=
  mkHandler
    (fun format args c w =>
       Returned
         (io_Write buffer
            (Context_Filename c ++ ":" ++ strconv.Itoa (Context_Line c)
               ++ " " ++ fmt.Sprintf format args) w))
    (fun w => Returned w).

(** The scheduler that always runs the first runnable goroutine, and the
    one that always runs the last. *)
Definition firstRunnable : Scheduler := fun _ _ => 0%nat.
Definition lastRunnable : Scheduler := fun k _ => (k - 1)%nat.

Definition twoBuffers : MultiHandler :=
  NewMultiHandler
    [WriterHandler_Handler (NewWriterHandler 7);
     WriterHandler_Handler (NewWriterHandler 8)].

Definition ctx0 : Context := mkContext "svc" INFO noon "main.go" 42.

Definition twoConnections : MultiHandler :=
  NewMultiHandler
    [SyslogHandler_Handler (mkSyslogHandler (syslog.mkWriter "a"));
     SyslogHandler_Handler (mkSyslogHandler (syslog.mkWriter "b"))].

(** ** Vocabulary of the further properties *)

(** How the ending of a goroutine's body shows in the process. *)
Definition asGoroutine (o : Outcome) : Outcome :=
  match o with
  | Returned w => Returned w
  | Panicked _ w => Terminated 2 w
  | Terminated status w => Terminated status w
  end.

(** The writer handlers of a list of buffers, as interface values. *)
Definition bufferHandlers (buffers : list nat) : list Handler :=
  map (fun buffer => WriterHandler_Handler (NewWriterHandler buffer)) buffers.

(** One leveled call with its arguments, and a logger making it. *)
Definition perform (l : logger) (c : Leveled * string * list value)
  : Action :=
  let '(m, format, args) := c in call m l format args.

(** The line a leveled call adds to the buffer of a writer handler at
    clock reading [t]: nothing when the threshold suppresses it. *)
Definition lineOf (l : logger) (t : Time)
  (c : Leveled * string * list value) : string :=
  let '(m, format, args) := c in
  if logger_Level l >=? level_of m then
    prefix (mkContext (logger_Name l) (level_of m) t EmptyString 0)
      ++ fmt.Sprintf (addMissingNewline format) args
  else EmptyString.

Definition joinLines (lines : list string) : string :=
  foldr String.append EmptyString lines.

(** * Proofs *)

(** ** Worked examples *)

Example Itoa_31 : strconv.Itoa 31 = "31".
Proof. reflexivity. Qed.

Example Itoa_neg : strconv.Itoa (-7) = "-7".
Proof. reflexivity. Qed.

Example Itoa_0 : strconv.Itoa 0 = "0".
Proof. reflexivity. Qed.

Example Sprintf_start_ok :
  fmt.Sprintf "start %s" [VString "ok"] = "start ok".
Proof. reflexivity. Qed.

Example Sprintf_left_justified :
  fmt.Sprintf "[%-8s]" [VString "INFO"] = "[INFO    ]".
Proof. reflexivity. Qed.

Example Sprintf_right_justified :
  fmt.Sprintf "[%4d]" [VInt 42] = "[  42]".
Proof. reflexivity. Qed.

Example Sprintf_missing : fmt.Sprintf "hi%d" [] = "hi%!d(MISSING)".
Proof. reflexivity. Qed.

Example Sprintf_bad_verb :
  fmt.Sprintf "%d" [VString "hi"] = "%!d(string=hi)".
Proof. reflexivity. Qed.

Example Sprintf_extra :
  fmt.Sprintf "hello" [VInt 1; VString "x"] = "hello%!(EXTRA int=1, string=x)".
Proof. reflexivity. Qed.

Example Sprintf_noverb : fmt.Sprintf "100%" [] = "100%!(NOVERB)".
Proof. reflexivity. Qed.

Example Sprintf_percent : fmt.Sprintf "100%%" [] = "100%".
Proof. reflexivity. Qed.

(** Formats inside and outside the fragment. *)
Example inFragment_start_ok :
  inFragment fmt.InText "start %s" [VString "ok"] = true.
Proof. reflexivity. Qed.

Example inFragment_width_and_percent :
  inFragment fmt.InText "%-8s|%5d%%" [VString "a"; VInt 1] = true.
Proof. reflexivity. Qed.

Example inFragment_rejects_precision :
  inFragment fmt.InText "%d%." [VInt 1; VInt 2] = false.
Proof. reflexivity. Qed.

Example inFragment_rejects_flags_and_verbs :
  map (fun format => inFragment fmt.InText format [VInt 1])
    ["%05d"; "%+d"; "% d"; "%#v"; "%.2s"; "%*d"; "%[1]d"; "%x"; "%q"; "%T"]
  = [false; false; false; false; false; false; false; false; false; false].
Proof. reflexivity. Qed.

Example inFragment_rejects_leftover :
  inFragment fmt.InText "hello" [VInt 1] = false
  /\ inFragment fmt.InText "100%" [] = false.
Proof. split; reflexivity. Qed.

Example LevelNames_INFO : LevelNames_at INFO = "INFO".
Proof. reflexivity. Qed.

Example LevelNames_absent : LevelNames_at 6 = EmptyString.
Proof. reflexivity. Qed.

Example LevelColors_ERROR : LevelColors_at ERROR = 31.
Proof. reflexivity. Qed.

Example svc_Info_start_ok :
  stream (world_of (logger_Info (svc 7) "start %s" [VString "ok"] world0)) 7
  = "2024-03-09 12:00:05 svc INFO     start ok" ++ LF.
Proof. vm_compute. reflexivity. Qed.

Example svc_Debug_suppressed :
  logger_Debug (svc 7) "start %s" [VString "ok"] world0 = Returned world0.
Proof. reflexivity. Qed.

(** ** Facts about byte strings *)

Section StringFacts.

Local Open Scope nat_scope.

Lemma append_nil_l (a : string) : EmptyString ++ a = a.
Proof. reflexivity. Qed.

Lemma append_cons (x : ascii) (a b : string) :
  String x a ++ b = String x (a ++ b).
Proof. reflexivity. Qed.

Lemma append_assoc (a b c : string) : (a ++ b) ++ c = a ++ (b ++ c).
Proof.
  induction a as [|x a IH]; [reflexivity|].
  now rewrite !append_cons, IH.
Qed.

Lemma append_nil_r (a : string) : a ++ EmptyString = a.
Proof.
  induction a as [|x a IH]; [reflexivity|]. now rewrite append_cons, IH.
Qed.

Lemma length_append (a b : string) :
  String.length (a ++ b) = String.length a + String.length b.
Proof.
  induction a as [|x a IH]; [reflexivity|].
  rewrite append_cons. simpl. now rewrite IH.
Qed.

Lemma substring_all (s : string) : substring 0 (String.length s) s = s.
Proof. induction s as [|x s IH]; simpl; [reflexivity | now rewrite IH]. Qed.

Lemma substring_skip (p s : string) (m : nat) :
  substring (String.length p) m (p ++ s) = substring 0 m s.
Proof.
  induction p as [|x p IH]; [reflexivity|].
  rewrite append_cons. simpl. exact IH.
Qed.

Lemma substring_take (p s : string) :
  substring 0 (String.length p) (p ++ s) = p.
Proof.
  induction p as [|x p IH].
  - rewrite append_nil_l. now destruct s.
  - rewrite append_cons. simpl. now rewrite IH.
Qed.

Lemma substring_split (n : nat) (s : string) :
  n <= String.length s ->
  s = substring 0 n s ++ substring n (String.length s - n) s.
Proof.
  revert n. induction s as [|x s IH]; intros [|n] Hn; simpl in *.
  - reflexivity.
  - lia.
  - now rewrite append_nil_l, substring_all.
  - rewrite append_cons. f_equal. apply IH. lia.
Qed.

Lemma append_inv_tail (p q s : string) : p ++ s = q ++ s -> p = q.
Proof.
  revert q. induction p as [|x p IH]; intros [|y q] H.
  - reflexivity.
  - apply (f_equal String.length) in H.
    rewrite append_nil_l, append_cons in H. simpl in H.
    rewrite length_append in H. lia.
  - apply (f_equal String.length) in H.
    rewrite append_nil_l, append_cons in H. simpl in H.
    rewrite length_append in H. lia.
  - rewrite !append_cons in H. injection H as -> H.
    f_equal. now apply IH.
Qed.

(** [s] ends with [suffix] exactly when [strings.HasSuffix] says so. *)
Lemma HasSuffix_append (p suffix : string) :
  strings.HasSuffix (p ++ suffix) suffix = true.
Proof.
  unfold strings.HasSuffix. rewrite length_append.
  apply andb_true_intro. split.
  - apply Nat.leb_le. lia.
  - replace (String.length p + String.length suffix - String.length suffix)
      with (String.length p) by lia.
    rewrite substring_skip, substring_all. apply String.eqb_refl.
Qed.

Lemma HasSuffix_inv (s suffix : string) :
  strings.HasSuffix s suffix = true -> exists p, s = p ++ suffix.
Proof.
  unfold strings.HasSuffix. intros H.
  apply andb_prop in H as [Hlen Heq].
  apply Nat.leb_le in Hlen. apply String.eqb_eq in Heq.
  exists (substring 0 (String.length s - String.length suffix) s).
  pose proof
    (substring_split (String.length s - String.length suffix) s) as Hs.
  replace (String.length s - (String.length s - String.length suffix))
    with (String.length suffix) in Hs by lia.
  rewrite Heq in Hs. apply Hs. lia.
Qed.

Lemma lastByte_cons (x : ascii) (s : string) :
  lastByte (String x s) = Some (default x (lastByte s)).
Proof.
  revert x. induction s as [|y s IH]; intros x; [reflexivity|].
  change (lastByte (String x (String y s))) with (lastByte (String y s)).
  now rewrite IH.
Qed.

Lemma lastByte_append (p s : string) :
  lastByte (p ++ s)
  = match lastByte s with Some c => Some c | None => lastByte p end.
Proof.
  induction p as [|x p IH].
  - rewrite append_nil_l. now destruct (lastByte s).
  - rewrite append_cons, !lastByte_cons, IH.
    now destruct (lastByte s).
Qed.

Lemma lastByte_inv (s : string) (c : ascii) :
  lastByte s = Some c -> exists p, s = p ++ String c EmptyString.
Proof.
  induction s as [|x s IH]; simpl; [discriminate|].
  destruct s as [|y s].
  - intros [= ->]. now exists EmptyString.
  - intros H. destruct (IH H) as [p Hp]. exists (String x p).
    rewrite append_cons. now rewrite <- Hp.
Qed.

Lemma HasSuffix_LF_lastByte (s : string) :
  strings.HasSuffix s LF = true <-> lastByte s = Some LF_byte.
Proof.
  split.
  - intros H. apply HasSuffix_inv in H as [p ->].
    now rewrite lastByte_append.
  - intros H. apply lastByte_inv in H as [p ->]. apply HasSuffix_append.
Qed.

End StringFacts.

Lemma endsInOneNewline_intro (body : string) :
  lastByte body <> Some LF_byte -> endsInOneNewline (body ++ LF).
Proof.
  intros Hlast. split; [apply HasSuffix_append|].
  destruct (strings.HasSuffix (body ++ LF) (LF ++ LF)) eqn:E; [|reflexivity].
  apply HasSuffix_inv in E as [p Hp].
  rewrite <- append_assoc in Hp. apply append_inv_tail in Hp.
  contradict Hlast. rewrite Hp, lastByte_append. reflexivity.
Qed.

(** [addMissingNewline] appends a newline exactly when there is none. *)
Lemma addMissingNewline_present (format : string) :
  strings.HasSuffix format LF = true -> addMissingNewline format = format.
Proof. unfold addMissingNewline. now intros ->. Qed.


Lemma addMissingNewline_HasSuffix (format : string) :
  strings.HasSuffix (addMissingNewline format) LF = true.
Proof.
  unfold addMissingNewline.
  destruct (strings.HasSuffix format LF) eqn:E; simpl; [exact E|].
  apply HasSuffix_append.
Qed.

(** ** Facts about the formatter *)

Lemma Sprintf_plain (format : string) :
  plain format = true -> fmt.Sprintf format [] = format.
Proof.
  unfold fmt.Sprintf. induction format as [|c rest IH]; [reflexivity|].
  simpl. intros H. apply andb_prop in H as [Hc Hrest].
  apply negb_true_iff in Hc. rewrite Hc. now rewrite IH.
Qed.



(** The two formats of the package itself. *)
Lemma Sprintf_prefix_format (ts name level : string) :
  fmt.Sprintf "%s %s %-8s " [VString ts; VString name; VString level]
  = ts ++ " " ++ name ++ " "
      ++ (level ++ fmt.writePadding (8 - utf8.RuneCountInString level))
      ++ " ".
Proof. reflexivity. Qed.

Lemma Sprintf_color_format (code : Z) :
  fmt.Sprintf (ESC ++ "[%dm") [VInt code]
  = ESC ++ "[" ++ strconv.Itoa code ++ "m".
Proof. reflexivity. Qed.

(** ** Facts about the tables *)

Lemma LevelNames_at_cases (l : Level) :
  In (LevelNames_at l)
     ["CRITICAL"; "ERROR"; "WARNING"; "NOTICE"; "INFO"; "DEBUG"; EmptyString].
Proof.
  unfold LevelNames_at, LevelNames.
  destruct (decide (l = CRITICAL)) as [->|?]; [simpl; tauto|].
  rewrite lookup_insert_ne by congruence.
  destruct (decide (l = ERROR)) as [->|?]; [simpl; tauto|].
  rewrite lookup_insert_ne by congruence.
  destruct (decide (l = WARNING)) as [->|?]; [simpl; tauto|].
  rewrite lookup_insert_ne by congruence.
  destruct (decide (l = NOTICE)) as [->|?]; [simpl; tauto|].
  rewrite lookup_insert_ne by congruence.
  destruct (decide (l = INFO)) as [->|?]; [simpl; tauto|].
  rewrite lookup_insert_ne by congruence.
  destruct (decide (l = DEBUG)) as [->|?]; [simpl; tauto|].
  rewrite lookup_singleton_ne by congruence. simpl. tauto.
Qed.

(** The level names are ASCII: runes and bytes coincide. *)
Lemma LevelNames_at_runes (l : Level) :
  utf8.RuneCountInString (LevelNames_at l) = String.length (LevelNames_at l).
Proof.
  pose proof (LevelNames_at_cases l) as H. simpl in H.
  repeat (destruct H as [<-|H]; [reflexivity|]). contradiction.
Qed.

(** ** Facts about time stamps *)

Lemma forallb_below (P : Z -> bool) (n : Z) :
  forallb (fun k => P (Z.of_nat k)) (seq 0 (Z.to_nat n)) = true ->
  forall x, 0 <= x < n -> P x = true.
Proof.
  intros H x Hx. rewrite forallb_forall in H.
  rewrite <- (Z2Nat.id x) by lia. apply H, in_seq. lia.
Qed.

Lemma appendInt_length_2 (x : Z) :
  0 <= x <= 99 -> String.length (time.appendInt x 2) = 2%nat.
Proof.
  intros Hx. apply Nat.eqb_eq.
  apply (forallb_below
           (fun x => (String.length (time.appendInt x 2) =? 2)%nat) 100);
    [vm_compute; reflexivity | lia].
Qed.

Lemma appendInt_length_4 (x : Z) :
  0 <= x <= 9999 -> String.length (time.appendInt x 4) = 4%nat.
Proof.
  intros Hx. apply Nat.eqb_eq.
  apply (forallb_below
           (fun x => (String.length (time.appendInt x 4) =? 4)%nat) 10000);
    [vm_compute; reflexivity | lia].
Qed.

Lemma dateTime_length (t : Time) :
  time.wellFormed t -> String.length (time.dateTime t) = 19%nat.
Proof.
  intros (Hy & Hmo & Hd & Hh & Hmi & Hs). unfold time.dateTime.
  rewrite !length_append.
  rewrite appendInt_length_4 by lia.
  rewrite !appendInt_length_2 by lia.
  reflexivity.
Qed.

(** The first 19 bytes of a printed time are its date and time of day. *)
Lemma Time_String_19 (t : Time) :
  time.wellFormed t ->
  substring 0 19 (time.Time_String t) = time.dateTime t.
Proof.
  intros H. unfold time.Time_String.
  rewrite <- (dateTime_length t H). apply substring_take.
Qed.

Lemma zeros_length (n : nat) : String.length (time.zeros n) = n.
Proof. induction n as [|n IH]; simpl; [reflexivity | now rewrite IH]. Qed.

Lemma appendInt_length_ge (x : Z) (width : nat) :
  (width <= String.length (time.appendInt x width))%nat.
Proof.
  unfold time.appendInt. rewrite !length_append, zeros_length. lia.
Qed.

(** The slice [[:19]] of [prefix] is always in range. *)
Lemma Time_String_length (t : Time) :
  (19 <= String.length (time.Time_String t))%nat.
Proof.
  unfold time.Time_String, time.dateTime. rewrite !length_append.
  pose proof (appendInt_length_ge (time.Year t) 4).
  pose proof (appendInt_length_ge (time.Month t) 2).
  pose proof (appendInt_length_ge (time.Day t) 2).
  pose proof (appendInt_length_ge (time.Hour t) 2).
  pose proof (appendInt_length_ge (time.Minute t) 2).
  pose proof (appendInt_length_ge (time.Second t) 2).
  simpl String.length. lia.
Qed.

(** ** Facts about writers *)

Lemma stream_io_Write (wr : io_Writer) (p : string) (w : World) :
  stream (io_Write wr p w) wr = stream w wr ++ p.
Proof. unfold stream at 1, io_Write. simpl. now rewrite lookup_insert_eq. Qed.

Lemma stream_io_Write_ne (wr wr' : io_Writer) (p : string) (w : World) :
  wr <> wr' -> stream (io_Write wr p w) wr' = stream w wr'.
Proof.
  intros H. unfold stream, io_Write. simpl. now rewrite lookup_insert_ne.
Qed.

(** Two writes to one writer are one write of the concatenation. *)
Lemma io_Write_io_Write (wr : io_Writer) (p q : string) (w : World) :
  io_Write wr q (io_Write wr p w) = io_Write wr (p ++ q) w.
Proof.
  unfold io_Write at 1. rewrite stream_io_Write. unfold io_Write. simpl.
  now rewrite insert_insert_eq, append_assoc.
Qed.

Lemma append_nonempty_neq (s p : string) : p <> EmptyString -> s ++ p <> s.
Proof.
  intros Hp H. apply (f_equal String.length) in H.
  rewrite length_append in H. destruct p; [congruence|]. simpl in H. lia.
Qed.

(** ** Facts about goroutines *)

(** Whatever the scheduler does, the goroutines of a fan-out run in some
    order of the handlers. *)
Lemma wg_Wait_order {A : Type} (sched : Scheduler) (g : A -> Action) :
  forall (n : nat) (hs : list A) (w : World),
    length hs = n ->
    exists order,
      order ≡ₚ hs /\ wg_Wait sched n (map g hs) w = runEach (map g order) w.
Proof.
  induction n as [|n IH]; intros hs w Hlen.
  - destruct hs; [|discriminate]. exists []. split; reflexivity.
  - simpl. rewrite length_map, Hlen.
    set (i := (sched (S n) w mod S n)%nat).
    assert (Hi : (i < length hs)%nat)
      by (rewrite Hlen; apply Nat.mod_upper_bound; lia).
    apply lookup_lt_is_Some_2 in Hi as [h Hh].
    change (map g hs) with (g <$> hs).
    rewrite list_lookup_fmap, Hh. simpl.
    destruct (g h w) as [w'|v w'|status w'] eqn:E.
    + rewrite <- list_fmap_delete.
      destruct (IH (delete i hs) w') as (order & Hperm & Hrun).
      { rewrite length_delete by eauto. lia. }
      exists (h :: order). split.
      * rewrite Hperm. symmetry. now apply delete_Permutation.
      * simpl. rewrite E. exact Hrun.
    + exists (h :: delete i hs). split.
      * symmetry. now apply delete_Permutation.
      * simpl. now rewrite E.
    + exists (h :: delete i hs). split.
      * symmetry. now apply delete_Permutation.
      * simpl. now rewrite E.
Qed.

(** Bodies that all return run as calls made in turn. *)
Lemma runEach_all_return (bodies : list Action) :
  (forall body w0, body ∈ bodies -> exists w1, body w0 = Returned w1) ->
  forall w, exists w', runEach bodies w = Returned w'
                       /\ inTurn bodies w = Returned w'.
Proof.
  induction bodies as [|body rest IH]; intros Hret w.
  - exists w. split; reflexivity.
  - destruct (Hret body w) as [w1 H1]; [left|].
    destruct (IH (fun b w0 Hb => Hret b w0 (list_elem_of_further _ _ _ Hb)) w1)
      as (w' & Hrun & Hturn).
    exists w'. simpl. rewrite H1. simpl. split; assumption.
Qed.

(** A body that panics after the ones before it returned ends the
    process there: the bodies after it never run. *)
Lemma runEach_panic (before after : list Action) (bad : Action)
  (w w1 w2 : World) (v : string) :
  inTurn before w = Returned w1 ->
  bad w1 = Panicked v w2 ->
  runEach (before ++ bad :: after) w = Terminated 2 w2.
Proof.
  revert w. induction before as [|body rest IH]; intros w Hturn Hbad.
  - injection Hturn as ->. simpl. now rewrite Hbad.
  - simpl in *. destruct (body w) as [w'| |]; try discriminate.
    simpl in Hturn. now apply IH.
Qed.

(** ** Leveled calls and the threshold *)

(** The six leveled methods share one shape. *)
Lemma call_unfold (m : Leveled) (l : logger) (format : string)
  (args : list value) (w : World) :
  call m l format args w
  = if logger_Level l >=? level_of m
    then logger_log l (level_of m) format args w
    else Returned w.
Proof. destruct m; reflexivity. Qed.

(** [logger.log] always hands the call to the handler. *)
Lemma logger_log_delivers (l : logger) (level : Level) (format : string)
  (args : list value) (w : World) :
  exists file line,
    logger_log l level format args w
    = Log (logger_Handler l) (addMissingNewline format) args
        (mkContext (logger_Name l) level (time_Now w) file line) w.
Proof.
  unfold logger_log.
  destruct (runtime_Caller 2 w) as [[file line]|]; eauto.
Qed.

Lemma prefix_unfold (c : Context) :
  prefix c
  = substring 0 19 (time.Time_String (Context_Time c)) ++ " "
      ++ Context_Name c ++ " "
      ++ (LevelNames_at (Context_Level c)
            ++ fmt.writePadding
                 (8 - String.length (LevelNames_at (Context_Level c))))
      ++ " ".
Proof.
  unfold prefix. rewrite Sprintf_prefix_format.
  now rewrite LevelNames_at_runes.
Qed.

Lemma prefix_lastByte (c : Context) : lastByte (prefix c) = Some " "%char.
Proof.
  rewrite prefix_unfold, <- !append_assoc.
  now rewrite lastByte_append.
Qed.

Lemma prefix_nonempty (c : Context) (s : string) :
  prefix c ++ s <> EmptyString.
Proof.
  pose proof (prefix_lastByte c) as H.
  destruct (prefix c); [discriminate|]. now rewrite append_cons.
Qed.

(** C1: a leveled call at level L on a logger with threshold T is handed
    to the configured handler when L <= T and does nothing when T < L;
    with a handler that writes to a buffer, the buffer grows if and only
    if L <= T.  The threshold ranges over all of [Level], the six
    enumerated values included. *)
Theorem leveled_call_emitted_iff_within_threshold
  (m : Leveled) (name : string) (T : Level) (format : string)
  (args : list value) (w : World) :
  (forall sink : Handler,
      level_of m <= T ->
      exists c,
        Context_Name c = name /\ Context_Level c = level_of m
        /\ call m (mkLogger name T sink) format args w
           = Log sink (addMissingNewline format) args c w)
  /\ (forall sink : Handler,
         T < level_of m ->
         call m (mkLogger name T sink) format args w = Returned w)
  /\ (forall buffer : io_Writer,
         stream (world_of (call m (bufferLogger name T buffer) format args w))
                buffer <> stream w buffer
         <-> level_of m <= T).
Proof.
  split; [|split].
  - intros sink Hle. rewrite call_unfold. simpl.
    destruct (Z.geb_spec T (level_of m)) as [_|Hlt]; [|lia].
    destruct (logger_log_delivers (mkLogger name T sink) (level_of m)
                format args w) as (file & line & ->).
    exists (mkContext name (level_of m) (time_Now w) file line).
    simpl. auto.
  - intros sink Hlt. rewrite call_unfold. simpl.
    destruct (Z.geb_spec T (level_of m)) as [Hge|_]; [lia | reflexivity].
  - intros buffer. rewrite call_unfold. simpl.
    destruct (Z.geb_spec T (level_of m)) as [Hge|Hlt].
    + split; [lia | intros _].
      destruct (logger_log_delivers (bufferLogger name T buffer)
                  (level_of m) format args w) as (file & line & ->).
      simpl. unfold WriterHandler_Log. simpl.
      rewrite stream_io_Write.
      apply append_nonempty_neq, prefix_nonempty.
    + split; [intros H; now contradict H | lia].
Qed.

(** With the threshold INFO, [Info] reaches the handler and [Debug] does
    not. *)
Lemma threshold_INFO_witness :
  (exists c,
      Context_Name c = "svc" /\ Context_Level c = INFO
      /\ call Info (mkLogger "svc" INFO DefaultHandler) "hello" [] world0
         = Log DefaultHandler (addMissingNewline "hello") [] c world0)
  /\ call Debug (mkLogger "svc" INFO DefaultHandler) "hello" [] world0
     = Returned world0.
Proof.
  split.
  - apply (proj1 (leveled_call_emitted_iff_within_threshold
                    Info "svc" INFO "hello" [] world0)).
    simpl. lia.
  - apply (proj1 (proj2 (leveled_call_emitted_iff_within_threshold
                           Debug "svc" INFO "hello" [] world0))).
    simpl. unfold INFO, DEBUG. lia.
Defined.

(** C9: a leveled call below the threshold changes nothing and never
    reaches the handler, whatever the handler is: the outcome is a return
    in the world the call started in. *)
Theorem suppressed_call_has_no_effect
  (m : Leveled) (l : logger) (format : string) (args : list value)
  (w : World) :
  logger_Level l < level_of m ->
  call m l format args w = Returned w.
Proof.
  intros Hlt. rewrite call_unfold.
  destruct (Z.geb_spec (logger_Level l) (level_of m)) as [Hge|_];
    [lia | reflexivity].
Qed.

(** Even a handler that would panic is not reached by a suppressed
    call. *)
Lemma suppressed_call_witness :
  logger_Level (mkLogger "svc" WARNING faultyHandler) < level_of Notice
  /\ call Notice (mkLogger "svc" WARNING faultyHandler) "tick %d" [VInt 1]
       world0
     = Returned world0.
Proof.
  assert (H : logger_Level (mkLogger "svc" WARNING faultyHandler)
              < level_of Notice) by (simpl; unfold WARNING, NOTICE; lia).
  split; [exact H|].
  exact (suppressed_call_has_no_effect Notice _ "tick %d" [VInt 1] world0 H).
Defined.

(** C10: when [runtime.Caller] cannot report the caller's frame, an
    emitted call still reaches the handler, with the call site
    [???] and line 0 in the Context and the name, level and time filled in
    as usual. *)
Theorem caller_lookup_failure_uses_sentinel
  (m : Leveled) (l : logger) (format : string) (args : list value)
  (w : World) :
  level_of m <= logger_Level l ->
  runtime_Caller 2 w = None ->
  call m l format args w
  = Log (logger_Handler l) (addMissingNewline format) args
      (mkContext (logger_Name l) (level_of m) (time_Now w) "???" 0) w.
Proof.
  intros Hle Hcaller. rewrite call_unfold.
  destruct (Z.geb_spec (logger_Level l) (level_of m)) as [_|Hlt]; [|lia].
  unfold logger_log. now rewrite Hcaller.
Qed.

Lemma caller_lookup_failure_witness :
  call Error (mkLogger "svc" INFO (siteHandler 7)) "disk %s"
    [VString "full"] shallowWorld
  = Returned (io_Write 7 ("???:0 disk full" ++ LF) shallowWorld).
Proof.
  rewrite (caller_lookup_failure_uses_sentinel
             Error (mkLogger "svc" INFO (siteHandler 7)) "disk %s"
             [VString "full"] shallowWorld).
  - reflexivity.
  - simpl. unfold ERROR, INFO. lia.
  - reflexivity.
Defined.

(** ** The trailing newline *)

Lemma plain_append_LF (format : string) :
  plain format = true -> plain (format ++ LF) = true.
Proof.
  induction format as [|c rest IH]; [reflexivity|].
  rewrite append_cons. simpl. intros H.
  apply andb_prop in H as [-> Hrest]. now rewrite IH.
Qed.

Lemma plain_addMissingNewline (format : string) :
  plain format = true -> plain (addMissingNewline format) = true.
Proof.
  unfold addMissingNewline.
  destruct (strings.HasSuffix format LF); simpl; [trivial|].
  apply plain_append_LF.
Qed.

(** A line made of the prefix and a format with its newline added ends in
    one newline, unless the format itself ends in two. *)
Lemma prefixed_line_one_newline (c : Context) (format : string) :
  strings.HasSuffix format (LF ++ LF) = false ->
  endsInOneNewline (prefix c ++ addMissingNewline format).
Proof.
  intros Htwo. unfold addMissingNewline.
  destruct (strings.HasSuffix format LF) eqn:E; simpl.
  - apply HasSuffix_inv in E as [body ->].
    rewrite <- append_assoc. apply endsInOneNewline_intro.
    rewrite lastByte_append.
    destruct (lastByte body) as [x|] eqn:Elast.
    + intros [= ->]. apply lastByte_inv in Elast as [h ->].
      rewrite append_assoc, HasSuffix_append in Htwo. discriminate.
    + now rewrite prefix_lastByte.
  - rewrite <- append_assoc. apply endsInOneNewline_intro.
    rewrite lastByte_append.
    destruct (lastByte format) as [x|] eqn:Elast.
    + intros [= ->]. apply HasSuffix_LF_lastByte in Elast. congruence.
    + now rewrite prefix_lastByte.
Qed.

(** The C2 claim fails for a template that ends in two newlines: nothing
    is appended, nothing is removed, and the line ends in both. *)
Lemma double_newline_counterexample :
  stream (world_of (logger_Info (svc 7) ("hello" ++ LF ++ LF) [] world0)) 7
  = "2024-03-09 12:00:05 svc INFO     hello" ++ LF ++ LF
  /\ strings.HasSuffix
       (stream (world_of (logger_Info (svc 7) ("hello" ++ LF ++ LF) []
                            world0)) 7)
       (LF ++ LF) = true.
Proof. split; vm_compute; reflexivity. Qed.

(** C2, amended: the logger appends a newline to the template exactly
    when the template does not end in one, and leaves a template that ends
    in one as it is; the writer handler then writes the prefix followed by
    the newline-terminated template formatted with the arguments.  For a
    template without directives, logged without arguments, the written
    line ends in a newline, and in exactly one unless the template itself
    ends in two. *)
Theorem newline_added_only_when_missing
  (m : Leveled) (name : string) (T : Level) (buffer : io_Writer)
  (format : string) (w : World) :
  addMissingNewline format
  = (if strings.HasSuffix format LF then format else format ++ LF)
  /\ strings.HasSuffix (addMissingNewline format) LF = true
  /\ (forall args : list value,
         level_of m <= T ->
         exists c,
           call m (bufferLogger name T buffer) format args w
           = Returned
               (io_Write buffer
                  (prefix c ++ fmt.Sprintf (addMissingNewline format) args)
                  w))
  /\ (level_of m <= T ->
      plain format = true ->
      exists line,
        call m (bufferLogger name T buffer) format [] w
        = Returned (io_Write buffer line w)
        /\ strings.HasSuffix line LF = true
        /\ (strings.HasSuffix format (LF ++ LF) = false ->
            endsInOneNewline line)).
Proof.
  assert (Hwrite : forall args,
             level_of m <= T ->
             exists c,
               call m (bufferLogger name T buffer) format args w
               = Returned
                   (io_Write buffer
                      (prefix c
                         ++ fmt.Sprintf (addMissingNewline format) args) w)).
  { intros args Hle. rewrite call_unfold. simpl.
    destruct (Z.geb_spec T (level_of m)) as [_|Hlt]; [|lia].
    destruct (logger_log_delivers (bufferLogger name T buffer) (level_of m)
                format args w) as (file & line & ->).
    eexists. reflexivity. }
  split; [|split; [|split]].
  - unfold addMissingNewline. now destruct (strings.HasSuffix format LF).
  - apply addMissingNewline_HasSuffix.
  - exact Hwrite.
  - intros Hle Hplain. destruct (Hwrite [] Hle) as [c Hc].
    rewrite Sprintf_plain in Hc by now apply plain_addMissingNewline.
    exists (prefix c ++ addMissingNewline format).
    split; [exact Hc|]. split.
    + apply HasSuffix_LF_lastByte. rewrite lastByte_append.
      pose proof (addMissingNewline_HasSuffix format) as H.
      apply HasSuffix_LF_lastByte in H. now rewrite H.
    + apply prefixed_line_one_newline.
Qed.

(** Logging [hello] and logging [hello] with its newline both give a line
    that ends in one newline. *)
Lemma newline_hello_witness :
  (exists line,
      call Info (bufferLogger "svc" INFO 7) "hello" [] world0
      = Returned (io_Write 7 line world0)
      /\ strings.HasSuffix line LF = true
      /\ (strings.HasSuffix "hello" (LF ++ LF) = false ->
          endsInOneNewline line))
  /\ (exists line,
         call Info (bufferLogger "svc" INFO 7) ("hello" ++ LF) [] world0
         = Returned (io_Write 7 line world0)
         /\ strings.HasSuffix line LF = true
         /\ (strings.HasSuffix ("hello" ++ LF) (LF ++ LF) = false ->
             endsInOneNewline line)).
Proof.
  split.
  - apply (proj2 (proj2 (proj2 (newline_added_only_when_missing
                                  Info "svc" INFO 7 "hello" world0)))).
    + simpl. lia.
    + reflexivity.
  - apply (proj2 (proj2 (proj2 (newline_added_only_when_missing
                                  Info "svc" INFO 7 ("hello" ++ LF)
                                  world0)))).
    + simpl. lia.
    + reflexivity.
Defined.

(** ** The text the handlers write *)

Example levelField_INFO : levelField INFO = "INFO    ".
Proof. reflexivity. Qed.

Example levelField_CRITICAL : levelField CRITICAL = "CRITICAL".
Proof. reflexivity. Qed.



(** C6: the console handler writes the color escape of the level's entry
    in [LevelColors], then the prefixed formatted message, then the reset
    escape; for ERROR the color code is 31. *)
Theorem ConsoleHandler_Log_bytes
  (b : ConsoleHandler) (format : string) (args : list value) (c : Context)
  (w : World) :
  ConsoleHandler_Log b format args c w
  = Returned
      (io_Write (WriterHandler_w (ConsoleHandler_wb b))
         ((ESC ++ "[" ++ strconv.Itoa (LevelColors_at (Context_Level c))
             ++ "m")
            ++ (prefix c ++ fmt.Sprintf format args)
            ++ (ESC ++ "[0m")) w)
  /\ (Context_Level c = ERROR ->
      ESC ++ "[" ++ strconv.Itoa (LevelColors_at (Context_Level c)) ++ "m"
      = ESC ++ "[31m").
Proof.
  split.
  - unfold ConsoleHandler_Log, WriterHandler_Log. simpl.
    rewrite Sprintf_color_format, !io_Write_io_Write.
    now rewrite !append_assoc.
  - now intros ->.
Qed.

(** An ERROR line on the standard error console. *)
Lemma ConsoleHandler_Log_bytes_witness :
  ConsoleHandler_Log StderrHandler ("down" ++ LF) []
    (mkContext "svc" ERROR noon "main.go" 42) world0
  = Returned
      (io_Write os_Stderr
         ((ESC ++ "[31m")
            ++ ("2024-03-09 12:00:05 svc ERROR    down" ++ LF)
            ++ (ESC ++ "[0m")) world0).
Proof.
  destruct (ConsoleHandler_Log_bytes StderrHandler ("down" ++ LF) []
              (mkContext "svc" ERROR noon "main.go" 42) world0)
    as [Hbytes Hcolor].
  rewrite Hcolor in Hbytes by reflexivity.
  exact Hbytes.
Defined.

(** ** Syslog dispatch *)

(** The case of an enumerated level is never the nil function. *)
Lemma SyslogHandler_fn_total (level : Level) :
  In level Levels -> exists fn, SyslogHandler_fn level = Some fn.
Proof.
  simpl. intros H.
  repeat (destruct H as [<-|H]; [eexists; reflexivity|]). contradiction.
Qed.

(** Two levels that select the same method are the same level. *)
Lemma SyslogHandler_fn_injective (l1 l2 : Level) (fn : syslog.method) :
  SyslogHandler_fn l1 = Some fn -> SyslogHandler_fn l2 = Some fn -> l1 = l2.
Proof.
  unfold SyslogHandler_fn. intros H1 H2.
  repeat match type of H1 with
         | context [?a =? ?b] => destruct (Z.eqb_spec a b); subst
         end;
  repeat match type of H2 with
         | context [?a =? ?b] => destruct (Z.eqb_spec a b); subst
         end;
  congruence.
Qed.

(** C7: the syslog handler sends the formatted message through the
    severity method of the Context's level: CRITICAL to Crit, ERROR to
    Err, WARNING to Warning, NOTICE to Notice, INFO to Info and DEBUG to
    Debug.  The selection is defined on each of the six levels and no two
    levels select the same method. *)
Theorem SyslogHandler_Log_dispatch
  (b : SyslogHandler) (format : string) (args : list value) (c : Context)
  (w : World) :
  map SyslogHandler_fn Levels
  = [Some syslog.Crit; Some syslog.Err; Some syslog.Warning;
     Some syslog.Notice; Some syslog.Info; Some syslog.Debug]
  /\ (forall l1 l2 fn,
         SyslogHandler_fn l1 = Some fn -> SyslogHandler_fn l2 = Some fn ->
         l1 = l2)
  /\ (In (Context_Level c) Levels ->
      exists fn,
        SyslogHandler_fn (Context_Level c) = Some fn
        /\ SyslogHandler_Log b format args c w
           = Returned
               (mkWorld (streams w)
                  (syslogd w
                     ++ [syslog.Message (syslog.tag (SyslogHandler_w b))
                           (syslog.severity fn) (fmt.Sprintf format args)])
                  (clock w) (callstack w))).
Proof.
  split; [reflexivity|]. split; [exact SyslogHandler_fn_injective|].
  intros Hin. destruct (SyslogHandler_fn_total _ Hin) as [fn Hfn].
  exists fn. split; [exact Hfn|].
  unfold SyslogHandler_Log. now rewrite Hfn.
Qed.

(** A WARNING message reaches the daemon with the warning severity. *)
Lemma SyslogHandler_Log_dispatch_witness :
  exists fn,
    SyslogHandler_fn WARNING = Some fn
    /\ SyslogHandler_Log (mkSyslogHandler (syslog.mkWriter "svc"))
         "disk %d%%" [VInt 91] (mkContext "svc" WARNING noon "main.go" 42)
         world0
       = Returned
           (mkWorld (streams world0)
              (syslogd world0
                 ++ [syslog.Message "svc" (syslog.severity fn)
                       (fmt.Sprintf "disk %d%%" [VInt 91])])
              (clock world0) (callstack world0)).
Proof.
  apply (proj2 (proj2 (SyslogHandler_Log_dispatch
                         (mkSyslogHandler (syslog.mkWriter "svc"))
                         "disk %d%%" [VInt 91]
                         (mkContext "svc" WARNING noon "main.go" 42)
                         world0))).
  simpl. tauto.
Defined.

Example syslog_warning_event :
  syslogd (world_of
             (SyslogHandler_Log (mkSyslogHandler (syslog.mkWriter "svc"))
                "disk %d%%" [VInt 91]
                (mkContext "svc" WARNING noon "main.go" 42) world0))
  = [syslog.Message "svc" syslog.LOG_WARNING "disk 91%"].
Proof. reflexivity. Qed.

(** ** Fatal and Panic *)

(** C8: [Panic] runs [Critical], which logs at CRITICAL under the usual
    threshold check, then closes the handler, then panics with the
    formatted message; the panic is one the caller may recover, where
    [Fatal] ends the process with status 1. *)
Theorem logger_Panic_logs_closes_panics
  (l : logger) (format : string) (args : list value) (w w1 w2 : World) :
  logger_Critical l format args w = Returned w1 ->
  Close (logger_Handler l) w1 = Returned w2 ->
  logger_Panic l format args w = Panicked (fmt.Sprintf format args) w2
  /\ logger_Fatal l format args w = Terminated 1 w2
  /\ (logger_Level l >= CRITICAL ->
      exists file line,
        Log (logger_Handler l) (addMissingNewline format) args
          (mkContext (logger_Name l) CRITICAL (time_Now w) file line) w
        = Returned w1)
  /\ (logger_Level l < CRITICAL -> w1 = w).
Proof.
  intros Hlog Hclose. unfold logger_Panic, logger_Fatal, logger_Close.
  rewrite Hlog. simpl. rewrite Hclose. simpl.
  split; [reflexivity|]. split; [reflexivity|].
  unfold logger_Critical in Hlog.
  destruct (Z.geb_spec (logger_Level l) CRITICAL) as [Hge|Hlt].
  - split; [intros _ | lia].
    destruct (logger_log_delivers l CRITICAL format args w)
      as (file & line & Heq).
    exists file, line. now rewrite <- Heq.
  - split; [lia | intros _; congruence].
Qed.

(** Through a syslog handler: the message is submitted, the connection is
    closed, and the panic carries the message without the added
    newline. *)
Lemma logger_Panic_witness :
  logger_Panic
    (mkLogger "svc" INFO
       (SyslogHandler_Handler (mkSyslogHandler (syslog.mkWriter "svc"))))
    "lost %s" [VString "quorum"] world0
  = Panicked "lost quorum"
      (mkWorld ∅
         [syslog.Message "svc" syslog.LOG_CRIT ("lost quorum" ++ LF);
          syslog.Disconnect "svc"]
         noon (callstack world0)).
Proof.
  apply (logger_Panic_logs_closes_panics
           (mkLogger "svc" INFO
              (SyslogHandler_Handler
                 (mkSyslogHandler (syslog.mkWriter "svc"))))
           "lost %s" [VString "quorum"] world0
           (mkWorld ∅
              [syslog.Message "svc" syslog.LOG_CRIT ("lost quorum" ++ LF)]
              noon (callstack world0))).
  - reflexivity.
  - reflexivity.
Defined.

(** ** Fan-out *)

(** C4: when every child's [Log] returns, one [Log] of a [MultiHandler]
    calls [Log] once on each child, in an order the scheduler chooses,
    each time with the format, the arguments and the Context it was
    given, and returns in the world the last of these calls left. *)
Theorem MultiHandler_Log_reaches_every_child
  (sched : Scheduler) (b : MultiHandler) (format : string)
  (args : list value) (ctx : Context) (w : World) :
  (forall handler w0,
      handler ∈ MultiHandler_handlers b ->
      exists w1, Log handler format args ctx w0 = Returned w1) ->
  exists order w',
    order ≡ₚ MultiHandler_handlers b
    /\ MultiHandler_Log sched b format args ctx w = Returned w'
    /\ inTurn (map (fun handler => Log handler format args ctx) order) w
       = Returned w'.
Proof.
  intros Hret. unfold MultiHandler_Log.
  destruct (wg_Wait_order sched (fun handler => Log handler format args ctx)
              (length (MultiHandler_handlers b)) (MultiHandler_handlers b) w
              eq_refl) as (order & Hperm & Hrun).
  destruct (runEach_all_return
              (map (fun handler => Log handler format args ctx) order)) with
    (w := w) as (w' & Heach & Hturn).
  { intros body w0 Hbody. change (map ?f ?l) with (f <$> l) in Hbody.
    apply list_elem_of_fmap in Hbody as (handler & -> & Hin).
    apply Hret. now rewrite <- Hperm. }
  exists order, w'. rewrite Hrun. auto.
Qed.

Lemma MultiHandler_Log_witness :
  exists order w',
    order ≡ₚ MultiHandler_handlers twoBuffers
    /\ MultiHandler_Log lastRunnable twoBuffers ("up" ++ LF) [] ctx0 world0
       = Returned w'
    /\ inTurn (map (fun handler => Log handler ("up" ++ LF) [] ctx0) order)
         world0
       = Returned w'.
Proof.
  apply (MultiHandler_Log_reaches_every_child
           lastRunnable twoBuffers ("up" ++ LF) [] ctx0 world0).
  intros handler w0 Hin. unfold twoBuffers in Hin. simpl in Hin.
  apply elem_of_cons in Hin as [->|Hin]; [eexists; reflexivity|].
  apply elem_of_cons in Hin as [->|Hin]; [eexists; reflexivity|].
  now apply elem_of_nil in Hin.
Defined.

(** Both buffers hold the line, whichever goroutine ran first. *)
Example twoBuffers_both_written :
  forall w',
    MultiHandler_Log lastRunnable twoBuffers ("up" ++ LF) [] ctx0 world0
    = Returned w' ->
    stream w' 7 = "2024-03-09 12:00:05 svc INFO     up" ++ LF
    /\ stream w' 8 = "2024-03-09 12:00:05 svc INFO     up" ++ LF.
Proof. intros w' [= <-]. split; vm_compute; reflexivity. Qed.

(** Goroutines over a list that holds one body that panics, all others
    returning: the ones the scheduler ran before it complete, it ends the
    process, the others never run. *)
Lemma wg_Wait_child_panics {A : Type} (sched : Scheduler) (g : A -> Action)
  (hs1 hs2 : list A) (faulty : A) (w : World) :
  (forall h w0, h ∈ (hs1 ++ hs2)%list -> exists w1, g h w0 = Returned w1) ->
  (forall w0, exists v w1, g faulty w0 = Panicked v w1) ->
  exists before after w1 v w2,
    (before ++ after)%list ≡ₚ (hs1 ++ hs2)%list
    /\ inTurn (map g before) w = Returned w1
    /\ g faulty w1 = Panicked v w2
    /\ wg_Wait sched (length (hs1 ++ faulty :: hs2)%list)
         (map g (hs1 ++ faulty :: hs2)%list) w
       = Terminated 2 w2.
Proof.
  intros Hret Hbad.
  destruct (wg_Wait_order sched g (length (hs1 ++ faulty :: hs2)%list)
              (hs1 ++ faulty :: hs2)%list w eq_refl) as (order & Hperm & Hrun).
  destruct (Permutation_vs_elt_inv _ _ _ Hperm) as (before & after & ->).
  apply Permutation_app_inv in Hperm.
  destruct (runEach_all_return (map g before)) with (w := w)
    as (w1 & _ & Hturn).
  { intros body w0 Hbody. change (map ?f ?l) with (f <$> l) in Hbody.
    apply list_elem_of_fmap in Hbody as (h & -> & Hin).
    apply Hret. rewrite <- Hperm. apply elem_of_app. now left. }
  destruct (Hbad w1) as (v & w2 & Hpanic).
  exists before, after, w1, v, w2. repeat split; try assumption.
  rewrite Hrun, map_app. simpl.
  now apply runEach_panic with (w1 := w1) (v := v).
Qed.

(** The C3 claim fails: with a child that panics and the scheduler running
    it first, neither [Log] nor [Close] of the fan-out returns, the process
    ends with status 2 and the other child's buffer stays empty. *)
Lemma fanout_panic_counterexample :
  MultiHandler_Log firstRunnable
    (NewMultiHandler
       [faultyHandler; WriterHandler_Handler (NewWriterHandler 7)])
    ("up" ++ LF) [] ctx0 world0
  = Terminated 2 world0
  /\ stream world0 7 = EmptyString
  /\ MultiHandler_Close firstRunnable
       (NewMultiHandler
          [faultyHandler; WriterHandler_Handler (NewWriterHandler 7)])
       world0
     = Terminated 2 world0.
Proof. repeat split. Qed.

(** C3, amended: a [MultiHandler] does not contain a child's panic.  When
    one child's [Log] panics and the others return, the children the
    scheduler ran before it complete their [Log], the panic ends the
    process with status 2 in the world the panicking child left, and the
    remaining children never receive the call; the fan-out's [Log] does
    not return.  The same holds for [Close]. *)
Theorem MultiHandler_child_panic_ends_process
  (sched : Scheduler) (hs1 hs2 : list Handler) (faulty : Handler)
  (format : string) (args : list value) (ctx : Context) (w : World) :
  ((forall h w0,
       h ∈ (hs1 ++ hs2)%list -> exists w1, Log h format args ctx w0 = Returned w1) ->
   (forall w0, exists v w1, Log faulty format args ctx w0 = Panicked v w1) ->
   exists before after w1 v w2,
     (before ++ after)%list ≡ₚ (hs1 ++ hs2)%list
     /\ inTurn (map (fun h => Log h format args ctx) before) w = Returned w1
     /\ Log faulty format args ctx w1 = Panicked v w2
     /\ MultiHandler_Log sched (NewMultiHandler (hs1 ++ faulty :: hs2)%list)
          format args ctx w
        = Terminated 2 w2)
  /\ ((forall h w0, h ∈ (hs1 ++ hs2)%list -> exists w1, Close h w0 = Returned w1) ->
      (forall w0, exists v w1, Close faulty w0 = Panicked v w1) ->
      exists before after w1 v w2,
        (before ++ after)%list ≡ₚ (hs1 ++ hs2)%list
        /\ inTurn (map (fun h => Close h) before) w = Returned w1
        /\ Close faulty w1 = Panicked v w2
        /\ MultiHandler_Close sched (NewMultiHandler (hs1 ++ faulty :: hs2)%list) w
           = Terminated 2 w2).
Proof.
  split; intros Hret Hbad.
  - exact (wg_Wait_child_panics sched (fun h => Log h format args ctx)
             hs1 hs2 faulty w Hret Hbad).
  - exact (wg_Wait_child_panics sched (fun h => Close h)
             hs1 hs2 faulty w Hret Hbad).
Qed.

(** With the faulty child last in the list: whatever the scheduler, the
    call ends the process. *)
Lemma MultiHandler_child_panic_witness :
  exists before after w1 v w2,
    (before ++ after)%list ≡ₚ ([WriterHandler_Handler (NewWriterHandler 7)] ++ [])%list
    /\ inTurn (map (fun h => Log h ("up" ++ LF) [] ctx0) before) world0
       = Returned w1
    /\ Log faultyHandler ("up" ++ LF) [] ctx0 w1 = Panicked v w2
    /\ MultiHandler_Log lastRunnable
         (NewMultiHandler
            ([WriterHandler_Handler (NewWriterHandler 7)]
               ++ faultyHandler :: [])%list)
         ("up" ++ LF) [] ctx0 world0
       = Terminated 2 w2.
Proof.
  apply (proj1 (MultiHandler_child_panic_ends_process
                  lastRunnable [WriterHandler_Handler (NewWriterHandler 7)]
                  [] faultyHandler ("up" ++ LF) [] ctx0 world0)).
  - intros h w0 Hin. simpl in Hin.
    apply elem_of_cons in Hin as [->|Hin]; [eexists; reflexivity|].
    now apply elem_of_nil in Hin.
  - intros w0. eexists _, _. reflexivity.
Defined.

(** * Further properties of the package *)

(** ** Fatal, Panic and the threshold *)

(** X1: [Fatal] and [Panic] never return to their caller, whatever the
    handler does: the call ends the process or panics. *)
Theorem Fatal_Panic_never_return
  (l : logger) (format : string) (args : list value) (w w' : World) :
  logger_Fatal l format args w <> Returned w'
  /\ logger_Panic l format args w <> Returned w'.
Proof.
  unfold logger_Fatal, logger_Panic, logger_Close.
  destruct (logger_Critical l format args w) as [w1|v w1|status w1]; simpl;
    [|split; discriminate..].
  destruct (Close (logger_Handler l) w1); simpl; split; discriminate.
Qed.

Lemma level_of_range (m : Leveled) : CRITICAL <= level_of m <= DEBUG.
Proof.
  destruct m; simpl;
    unfold CRITICAL, ERROR, WARNING, NOTICE, INFO, DEBUG; lia.
Qed.

(** X2: the threshold is an [int]: after [SetLevel] with a value below
    CRITICAL every leveled call, [Critical] included, does nothing, and
    with a value of DEBUG or more every leveled call reaches the handler. *)
Theorem SetLevel_beyond_the_levels
  (l : logger) (T : Level) (m : Leveled) (format : string)
  (args : list value) (w : World) :
  (T < CRITICAL ->
   call m (logger_SetLevel l T) format args w = Returned w)
  /\ (DEBUG <= T ->
      exists file line,
        call m (logger_SetLevel l T) format args w
        = Log (logger_Handler l) (addMissingNewline format) args
            (mkContext (logger_Name l) (level_of m) (time_Now w) file line)
            w).
Proof.
  pose proof (level_of_range m) as Hm. rewrite call_unfold. simpl.
  split; intros HT.
  - destruct (Z.geb_spec T (level_of m)); [lia | reflexivity].
  - destruct (Z.geb_spec T (level_of m)); [|lia].
    apply (logger_log_delivers (logger_SetLevel l T)).
Qed.

Lemma SetLevel_beyond_the_levels_witness :
  call Critical (logger_SetLevel (svc 7) (-1)) "boom" [] world0
  = Returned world0
  /\ exists file line,
       call Debug (logger_SetLevel (svc 7) 9) "tick" [] world0
       = Log (logger_Handler (svc 7)) (addMissingNewline "tick") []
           (mkContext (logger_Name (svc 7)) (level_of Debug)
              (time_Now world0) file line) world0.
Proof.
  split.
  - apply (proj1 (SetLevel_beyond_the_levels
                    (svc 7) (-1) Critical "boom" [] world0)).
    unfold CRITICAL. lia.
  - apply (proj2 (SetLevel_beyond_the_levels
                    (svc 7) 9 Debug "tick" [] world0)).
    unfold DEBUG. lia.
Defined.

(** X3: when [runtime.Caller(2)] reports a frame, an emitted call hands
    the handler a Context with that frame's file and line, the logger's
    name, the level of the method and the clock's reading. *)
Theorem call_site_is_second_frame
  (m : Leveled) (l : logger) (format : string) (args : list value)
  (w : World) (file : string) (line : Z) :
  level_of m <= logger_Level l ->
  callstack w !! 2%nat = Some (file, line) ->
  call m l format args w
  = Log (logger_Handler l) (addMissingNewline format) args
      (mkContext (logger_Name l) (level_of m) (clock w) file line) w.
Proof.
  intros Hle Hframe. rewrite call_unfold.
  destruct (Z.geb_spec (logger_Level l) (level_of m)); [|lia].
  unfold logger_log, runtime_Caller. now rewrite Hframe.
Qed.

Lemma call_site_witness :
  call Warning (mkLogger "svc" INFO (siteHandler 7)) "disk %d%%" [VInt 91]
    world0
  = Returned (io_Write 7 ("main.go:42 disk 91%" ++ LF) world0).
Proof.
  rewrite (call_site_is_second_frame Warning
             (mkLogger "svc" INFO (siteHandler 7)) "disk %d%%" [VInt 91]
             world0 "main.go" 42).
  - reflexivity.
  - simpl. unfold WARNING, INFO. lia.
  - reflexivity.
Defined.

(** ** The tables and the prefix *)

Lemma LevelColors_at_cases (l : Level) :
  (In l Levels /\ 31 <= LevelColors_at l <= 37)
  \/ (~ In l Levels /\ LevelColors_at l = 0).
Proof.
  unfold LevelColors_at, LevelColors, Levels.
  destruct (decide (l = CRITICAL)) as [->|?];
    [left; split; [simpl; tauto | vm_compute; split; discriminate]|].
  rewrite lookup_insert_ne by congruence.
  destruct (decide (l = ERROR)) as [->|?];
    [left; split; [simpl; tauto | vm_compute; split; discriminate]|].
  rewrite lookup_insert_ne by congruence.
  destruct (decide (l = WARNING)) as [->|?];
    [left; split; [simpl; tauto | vm_compute; split; discriminate]|].
  rewrite lookup_insert_ne by congruence.
  destruct (decide (l = NOTICE)) as [->|?];
    [left; split; [simpl; tauto | vm_compute; split; discriminate]|].
  rewrite lookup_insert_ne by congruence.
  destruct (decide (l = INFO)) as [->|?];
    [left; split; [simpl; tauto | vm_compute; split; discriminate]|].
  rewrite lookup_insert_ne by congruence.
  destruct (decide (l = DEBUG)) as [->|?];
    [left; split; [simpl; tauto | vm_compute; split; discriminate]|].
  rewrite lookup_singleton_ne by congruence.
  right. split; [simpl; intuition congruence | reflexivity].
Qed.

Lemma LevelNames_at_absent (l : Level) :
  ~ In l Levels -> LevelNames_at l = EmptyString.
Proof.
  unfold LevelNames_at, LevelNames, Levels. simpl. intros H.
  rewrite !lookup_insert_ne by intuition congruence.
  now rewrite lookup_singleton_ne by intuition congruence.
Qed.

Lemma Levels_dec (l : Level) : In l Levels \/ ~ In l Levels.
Proof. destruct (LevelColors_at_cases l); tauto. Qed.

(** X4: [LevelNames] and [LevelColors] have an entry for exactly the six
    levels: a level among them has a name that is not empty and a color
    code from 31 to 37, any other level indexes to the empty name and the
    color 0; and no two of the six share a name or a color. *)
Theorem level_tables_cover_the_six_levels (l l' : Level) :
  (In l Levels <-> LevelNames_at l <> EmptyString)
  /\ (In l Levels <-> 31 <= LevelColors_at l <= 37)
  /\ (~ In l Levels <-> LevelColors_at l = 0)
  /\ (In l Levels -> In l' Levels ->
      LevelNames_at l = LevelNames_at l' \/ LevelColors_at l = LevelColors_at l'
      -> l = l').
Proof.
  split; [|split; [|split]].
  - split.
    + simpl. intros H.
      repeat (destruct H as [<-|H]; [discriminate|]). contradiction.
    + intros H. destruct (Levels_dec l) as [Hin|Hout]; [exact Hin|].
      now apply LevelNames_at_absent in Hout.
  - destruct (LevelColors_at_cases l) as [[Hin Hc]|[Hout Hc]];
      [tauto | rewrite Hc; split; [tauto | lia]].
  - destruct (LevelColors_at_cases l) as [[Hin Hc]|[Hout Hc]];
      [split; [tauto | lia] | tauto].
  - simpl. intros H H' Heq.
    repeat (destruct H as [<-|H]; [|]); try contradiction;
      repeat (destruct H' as [<-|H']; [|]); try contradiction;
      try reflexivity; exfalso; vm_compute in Heq;
      destruct Heq; discriminate.
Qed.

Lemma writePadding_length (n : nat) :
  String.length (fmt.writePadding n) = n.
Proof. induction n as [|n IH]; simpl; [reflexivity | now rewrite IH]. Qed.

Lemma levelField_length (l : Level) : String.length (levelField l) = 8%nat.
Proof.
  unfold levelField. rewrite length_append, writePadding_length.
  pose proof (LevelNames_at_cases l) as H. simpl in H.
  repeat (destruct H as [<-|H]; [reflexivity|]). contradiction.
Qed.

(** X5: the prefix has fixed columns: for a time the clock can read and
    any level, known or not, it is 30 bytes longer than the logger's name,
    so the message starts at the same column on every line of a logger. *)
Theorem prefix_has_fixed_width (c : Context) :
  time.wellFormed (Context_Time c) ->
  String.length (prefix c) = (30 + String.length (Context_Name c))%nat.
Proof.
  intros Htime. rewrite prefix_unfold, Time_String_19 by easy.
  fold (levelField (Context_Level c)).
  rewrite !length_append, dateTime_length, levelField_length by easy.
  simpl. lia.
Qed.

Lemma prefix_width_witness :
  String.length (prefix (mkContext "svc" 77 noon "main.go" 42)) = 33%nat.
Proof.
  apply (prefix_has_fixed_width (mkContext "svc" 77 noon "main.go" 42)).
  unfold time.wellFormed. simpl. lia.
Defined.

(** ** The template *)

(** X6: adding the missing newline is idempotent and only ever appends:
    the result is the template itself or the template followed by one
    newline, and the empty template becomes a single newline. *)
Theorem addMissingNewline_idempotent (format : string) :
  addMissingNewline (addMissingNewline format) = addMissingNewline format
  /\ (addMissingNewline format = format
      \/ addMissingNewline format = format ++ LF)
  /\ (String.length format <= String.length (addMissingNewline format)
       <= S (String.length format))%nat
  /\ (format = EmptyString -> addMissingNewline format = LF).
Proof.
  split; [|split; [|split]].
  - apply addMissingNewline_present, addMissingNewline_HasSuffix.
  - unfold addMissingNewline.
    destruct (strings.HasSuffix format LF); simpl; auto.
  - unfold addMissingNewline.
    destruct (strings.HasSuffix format LF); simpl;
      [|rewrite length_append; simpl]; lia.
  - now intros ->.
Qed.

(** ** Handlers and their destinations *)

Lemma SyslogHandler_fn_absent (level : Level) :
  ~ In level Levels -> SyslogHandler_fn level = None.
Proof.
  unfold SyslogHandler_fn, Levels. simpl. intros H.
  repeat match goal with
         | |- context [?a =? ?b] =>
             destruct (Z.eqb_spec a b); [exfalso; intuition congruence|]
         end.
  reflexivity.
Qed.

(** X7: the [switch] of the syslog handler has no default case: for a
    Context whose level is one of the six, [Log] returns after one
    submission to the daemon; for any other level the function value is
    nil and [Log] panics without submitting anything. *)
Theorem SyslogHandler_Log_outside_the_levels
  (b : SyslogHandler) (format : string) (args : list value) (c : Context)
  (w : World) :
  (In (Context_Level c) Levels ->
   exists w',
     SyslogHandler_Log b format args c w = Returned w'
     /\ length (syslogd w') = S (length (syslogd w)))
  /\ (~ In (Context_Level c) Levels ->
      SyslogHandler_Log b format args c w = Panicked nilDereference w).
Proof.
  unfold SyslogHandler_Log. split; intros H.
  - destruct (SyslogHandler_fn_total _ H) as [fn ->].
    eexists. split; [reflexivity|].
    simpl. rewrite length_app. simpl. lia.
  - now rewrite SyslogHandler_fn_absent.
Qed.

Lemma SyslogHandler_Log_outside_witness :
  SyslogHandler_Log (mkSyslogHandler (syslog.mkWriter "svc")) "lost" []
    (mkContext "svc" 6 noon "main.go" 42) world0
  = Panicked nilDereference world0.
Proof.
  apply (proj2 (SyslogHandler_Log_outside_the_levels
                  (mkSyslogHandler (syslog.mkWriter "svc")) "lost" []
                  (mkContext "svc" 6 noon "main.go" 42) world0)).
  simpl. unfold CRITICAL, ERROR, WARNING, NOTICE, INFO, DEBUG.
  intuition discriminate.
Defined.

(** The three writes of the console handler, as one. *)
Lemma ConsoleHandler_Log_writes (b : ConsoleHandler) (format : string)
  (args : list value) (c : Context) (w : World) :
  ConsoleHandler_Log b format args c w
  = Returned
      (io_Write (WriterHandler_w (ConsoleHandler_wb b))
         (ESC ++ "[" ++ strconv.Itoa (LevelColors_at (Context_Level c)) ++ "m"
            ++ prefix c ++ fmt.Sprintf format args ++ ESC ++ "[0m") w).
Proof.
  unfold ConsoleHandler_Log, WriterHandler_Log. simpl.
  rewrite Sprintf_color_format, !io_Write_io_Write.
  now rewrite !append_assoc.
Qed.

(** X8: a handler touches its own destination only.  [Log] of a writer
    or console handler leaves every other writer's bytes and the syslog
    daemon as they were; [Log] and [Close] of a syslog handler leave every
    writer as it was; and no [Log] changes the clock or the stack. *)
Theorem handlers_touch_their_destination_only
  (format : string) (args : list value) (c : Context) (w : World) :
  (forall (b : WriterHandler) (wr : io_Writer),
      wr <> WriterHandler_w b ->
      stream (world_of (WriterHandler_Log b format args c w)) wr
      = stream w wr)
  /\ (forall (b : ConsoleHandler) (wr : io_Writer),
         wr <> WriterHandler_w (ConsoleHandler_wb b) ->
         stream (world_of (ConsoleHandler_Log b format args c w)) wr
         = stream w wr)
  /\ (forall b : WriterHandler,
         syslogd (world_of (WriterHandler_Log b format args c w))
         = syslogd w)
  /\ (forall b : ConsoleHandler,
         syslogd (world_of (ConsoleHandler_Log b format args c w))
         = syslogd w)
  /\ (forall b : SyslogHandler,
         streams (world_of (SyslogHandler_Log b format args c w))
         = streams w
         /\ streams (world_of (SyslogHandler_Close b w)) = streams w)
  /\ (forall b : WriterHandler,
         clock (world_of (WriterHandler_Log b format args c w)) = clock w
         /\ callstack (world_of (WriterHandler_Log b format args c w))
            = callstack w)
  /\ (forall b : ConsoleHandler,
         clock (world_of (ConsoleHandler_Log b format args c w)) = clock w
         /\ callstack (world_of (ConsoleHandler_Log b format args c w))
            = callstack w)
  /\ (forall b : SyslogHandler,
         clock (world_of (SyslogHandler_Log b format args c w)) = clock w
         /\ callstack (world_of (SyslogHandler_Log b format args c w))
            = callstack w).
Proof.
  split; [|split; [|split; [|split; [|split; [|split; [|split]]]]]].
  - intros b wr Hne. unfold WriterHandler_Log. simpl.
    apply stream_io_Write_ne. congruence.
  - intros b wr Hne. rewrite ConsoleHandler_Log_writes. simpl.
    apply stream_io_Write_ne. congruence.
  - reflexivity.
  - intros b. now rewrite ConsoleHandler_Log_writes.
  - intros b. split; [|reflexivity]. unfold SyslogHandler_Log.
    now destruct (SyslogHandler_fn (Context_Level c)).
  - split; reflexivity.
  - intros b. rewrite ConsoleHandler_Log_writes. split; reflexivity.
  - intros b. unfold SyslogHandler_Log.
    destruct (SyslogHandler_fn (Context_Level c)); split; reflexivity.
Qed.

Lemma handlers_destination_witness :
  stream (world_of (ConsoleHandler_Log StderrHandler ("up" ++ LF) [] ctx0
                      world0)) os_Stdout
  = stream world0 os_Stdout.
Proof.
  apply (proj1 (proj2 (handlers_touch_their_destination_only
                         ("up" ++ LF) [] ctx0 world0))).
  discriminate.
Defined.

(** X9: a logger from [NewLogger] has the threshold INFO and the console
    handler of standard error: [Debug] does nothing; each of the other
    five methods makes one colored write to standard error, made of the
    color escape of the level, the prefix with the logger's name and the
    level, the formatted template and the reset escape. *)
Theorem NewLogger_logs_to_stderr_at_INFO
  (name : string) (m : Leveled) (format : string) (args : list value)
  (w : World) :
  (m = Debug -> call m (NewLogger name) format args w = Returned w)
  /\ (m <> Debug ->
      exists file line,
        call m (NewLogger name) format args w
        = Returned
            (io_Write os_Stderr
               (ESC ++ "[" ++ strconv.Itoa (LevelColors_at (level_of m))
                  ++ "m"
                  ++ prefix (mkContext name (level_of m) (clock w) file line)
                  ++ fmt.Sprintf (addMissingNewline format) args
                  ++ ESC ++ "[0m") w)).
Proof.
  split.
  - now intros ->.
  - intros Hm. rewrite call_unfold.
    destruct (Z.geb_spec (logger_Level (NewLogger name)) (level_of m))
      as [_|Hlt].
    + destruct (logger_log_delivers (NewLogger name) (level_of m) format
                  args w) as (file & line & ->).
      exists file, line. simpl. now rewrite ConsoleHandler_Log_writes.
    + destruct m; simpl in Hlt;
        unfold DefaultLevel, CRITICAL, ERROR, WARNING, NOTICE, INFO in Hlt;
        solve [lia | congruence].
Qed.

Lemma NewLogger_witness :
  call Debug (NewLogger "svc") "tick" [] world0 = Returned world0
  /\ exists file line,
       call Error (NewLogger "svc") "down" [] world0
       = Returned
           (io_Write os_Stderr
              (ESC ++ "[" ++ strconv.Itoa (LevelColors_at (level_of Error))
                 ++ "m"
                 ++ prefix (mkContext "svc" (level_of Error) (clock world0)
                              file line)
                 ++ fmt.Sprintf (addMissingNewline "down") []
                 ++ ESC ++ "[0m") world0).
Proof.
  split.
  - now apply (proj1 (NewLogger_logs_to_stderr_at_INFO
                        "svc" Debug "tick" [] world0)).
  - apply (proj2 (NewLogger_logs_to_stderr_at_INFO
                    "svc" Error "down" [] world0)).
    discriminate.
Defined.

Example NewLogger_Error_bytes :
  stream (world_of (call Error (NewLogger "svc") "down" [] world0)) os_Stderr
  = ESC ++ "[31m2024-03-09 12:00:05 svc ERROR    down" ++ LF ++ ESC ++ "[0m".
Proof. vm_compute. reflexivity. Qed.

(** ** More on the fan-out *)

(** X10: when every child's [Close] returns, [Close] of a [MultiHandler]
    closes each child once, in an order the scheduler chooses, and returns
    in the world the last of them left. *)
Theorem MultiHandler_Close_closes_every_child
  (sched : Scheduler) (b : MultiHandler) (w : World) :
  (forall handler w0,
      handler ∈ MultiHandler_handlers b ->
      exists w1, Close handler w0 = Returned w1) ->
  exists order w',
    order ≡ₚ MultiHandler_handlers b
    /\ MultiHandler_Close sched b w = Returned w'
    /\ inTurn (map (fun handler => Close handler) order) w = Returned w'.
Proof.
  intros Hret. unfold MultiHandler_Close.
  destruct (wg_Wait_order sched (fun handler => Close handler)
              (length (MultiHandler_handlers b)) (MultiHandler_handlers b) w
              eq_refl) as (order & Hperm & Hrun).
  destruct (runEach_all_return (map (fun handler => Close handler) order))
    with (w := w) as (w' & Heach & Hturn).
  { intros body w0 Hbody. change (map ?f ?l) with (f <$> l) in Hbody.
    apply list_elem_of_fmap in Hbody as (handler & -> & Hin).
    apply Hret. now rewrite <- Hperm. }
  exists order, w'. rewrite Hrun. auto.
Qed.

Lemma MultiHandler_Close_witness :
  exists order w',
    order ≡ₚ MultiHandler_handlers twoConnections
    /\ MultiHandler_Close lastRunnable twoConnections world0 = Returned w'
    /\ inTurn (map (fun handler => Close handler) order) world0
       = Returned w'.
Proof.
  apply (MultiHandler_Close_closes_every_child
           lastRunnable twoConnections world0).
  intros handler w0 Hin. unfold twoConnections in Hin. simpl in Hin.
  apply elem_of_cons in Hin as [->|Hin]; [eexists; reflexivity|].
  apply elem_of_cons in Hin as [->|Hin]; [eexists; reflexivity|].
  now apply elem_of_nil in Hin.
Defined.

Example twoConnections_closed_last_first :
  syslogd (world_of (MultiHandler_Close lastRunnable twoConnections world0))
  = [syslog.Disconnect "b"; syslog.Disconnect "a"].
Proof. reflexivity. Qed.

(** X11: a [MultiHandler] without children returns at once, from [Log]
    and from [Close]; a [MultiHandler] with one child ends as the child
    does, except that the child's panic, raised in a goroutine of its own,
    ends the process instead of reaching the caller. *)
Theorem MultiHandler_of_none_and_of_one
  (sched : Scheduler) (h : Handler) (format : string) (args : list value)
  (ctx : Context) (w : World) :
  MultiHandler_Log sched (NewMultiHandler []) format args ctx w = Returned w
  /\ MultiHandler_Close sched (NewMultiHandler []) w = Returned w
  /\ MultiHandler_Log sched (NewMultiHandler [h]) format args ctx w
     = asGoroutine (Log h format args ctx w)
  /\ MultiHandler_Close sched (NewMultiHandler [h]) w
     = asGoroutine (Close h w).
Proof.
  unfold MultiHandler_Log, MultiHandler_Close, asGoroutine. simpl.
  split; [reflexivity|]. split; [reflexivity|].
  split; [now destruct (Log h format args ctx w)
         | now destruct (Close h w)].
Qed.

(** Writes of one line to a list of buffers, one after the other. *)
Lemma runEach_buffers (line : string) (order : list nat) :
  forall w,
    exists w',
      runEach (map (fun buffer w0 => Returned (io_Write buffer line w0))
                 order) w
      = Returned w'
      /\ syslogd w' = syslogd w /\ clock w' = clock w
      /\ callstack w' = callstack w
      /\ (forall buffer, buffer ∉ order -> stream w' buffer = stream w buffer)
      /\ (NoDup order ->
          forall buffer,
            buffer ∈ order -> stream w' buffer = stream w buffer ++ line).
Proof.
  induction order as [|b order IH]; intros w.
  - exists w. repeat split; try reflexivity.
    intros _ buffer Hin. now apply elem_of_nil in Hin.
  - destruct (IH (io_Write b line w))
      as (w' & Hrun & Hsys & Hclock & Hstack & Hout & Hin).
    exists w'. simpl. repeat split; try assumption.
    + intros buffer Hnot. apply not_elem_of_cons in Hnot as [Hne Hnot].
      rewrite Hout by assumption. apply stream_io_Write_ne. congruence.
    + intros Hnodup buffer Hb. apply NoDup_cons in Hnodup as [Hfresh Hnodup].
      apply elem_of_cons in Hb as [->|Hb].
      * rewrite Hout by assumption. apply stream_io_Write.
      * rewrite (Hin Hnodup buffer Hb). f_equal.
        apply stream_io_Write_ne. intros ->. contradiction.
Qed.

(** X12: for writer handlers on distinct buffers the scheduler does not
    matter: [Log] of their [MultiHandler] returns, every child's buffer
    has grown by the one line, the same for all, and every other buffer,
    the syslog daemon, the clock and the stack are as before. *)
Theorem MultiHandler_Log_to_buffers
  (sched : Scheduler) (buffers : list nat) (format : string)
  (args : list value) (ctx : Context) (w : World) :
  NoDup buffers ->
  exists w',
    MultiHandler_Log sched (NewMultiHandler (bufferHandlers buffers)) format
      args ctx w
    = Returned w'
    /\ (forall buffer,
           buffer ∈ buffers ->
           stream w' buffer
           = stream w buffer ++ prefix ctx ++ fmt.Sprintf format args)
    /\ (forall buffer, buffer ∉ buffers -> stream w' buffer = stream w buffer)
    /\ syslogd w' = syslogd w /\ clock w' = clock w
    /\ callstack w' = callstack w.
Proof.
  intros Hnodup. unfold MultiHandler_Log, bufferHandlers. simpl.
  rewrite length_map, map_map. simpl.
  destruct (wg_Wait_order sched
              (fun buffer w0 =>
                 Returned
                   (io_Write buffer (prefix ctx ++ fmt.Sprintf format args)
                      w0))
              (length buffers) buffers w eq_refl) as (order & Hperm & Hrun).
  unfold WriterHandler_Log. simpl. rewrite Hrun.
  destruct (runEach_buffers (prefix ctx ++ fmt.Sprintf format args) order w)
    as (w' & Heach & Hsys & Hclock & Hstack & Hout & Hin).
  exists w'. repeat split; try assumption.
  - intros buffer Hb. apply Hin; now rewrite Hperm.
  - intros buffer Hb. apply Hout. now rewrite Hperm.
Qed.

Lemma MultiHandler_Log_to_buffers_witness :
  exists w',
    MultiHandler_Log firstRunnable
      (NewMultiHandler (bufferHandlers [7; 8; 9]%nat)) ("up" ++ LF) [] ctx0
      world0
    = Returned w'
    /\ (forall buffer,
           buffer ∈ [7; 8; 9]%nat ->
           stream w' buffer
           = stream world0 buffer ++ prefix ctx0
               ++ fmt.Sprintf ("up" ++ LF) [])
    /\ (forall buffer,
           buffer ∉ [7; 8; 9]%nat -> stream w' buffer = stream world0 buffer)
    /\ syslogd w' = syslogd world0 /\ clock w' = clock world0
    /\ callstack w' = callstack world0.
Proof.
  apply (MultiHandler_Log_to_buffers firstRunnable [7; 8; 9]%nat
           ("up" ++ LF) [] ctx0 world0).
  repeat (apply NoDup_cons; split;
          [rewrite ?elem_of_cons, elem_of_nil; lia|]).
  apply NoDup_nil_2.
Defined.

(** X13: when the [Close] of every child changes nothing, as [Close] of
    the writer and console handlers does, [Close] of their [MultiHandler]
    changes nothing either, whatever the scheduler. *)
Theorem MultiHandler_Close_of_idle_children
  (sched : Scheduler) (b : MultiHandler) (w : World) :
  (forall handler w0,
      handler ∈ MultiHandler_handlers b -> Close handler w0 = Returned w0) ->
  MultiHandler_Close sched b w = Returned w.
Proof.
  intros Hidle. unfold MultiHandler_Close.
  destruct (wg_Wait_order sched (fun handler => Close handler)
              (length (MultiHandler_handlers b)) (MultiHandler_handlers b) w
              eq_refl) as (order & Hperm & ->).
  assert (Hall : forall handler, handler ∈ order ->
                                 forall w0, Close handler w0 = Returned w0).
  { intros handler Hin w0. apply Hidle. now rewrite <- Hperm. }
  clear Hperm Hidle. induction order as [|handler order IH]; [reflexivity|].
  simpl. rewrite Hall by left. apply IH.
  intros h Hin. apply Hall. now right.
Qed.

Lemma MultiHandler_Close_idle_witness :
  MultiHandler_Close lastRunnable
    (NewMultiHandler
       [WriterHandler_Handler (NewWriterHandler 7);
        ConsoleHandler_Handler StderrHandler]) world0
  = Returned world0.
Proof.
  apply (MultiHandler_Close_of_idle_children lastRunnable
           (NewMultiHandler
              [WriterHandler_Handler (NewWriterHandler 7);
               ConsoleHandler_Handler StderrHandler]) world0).
  intros handler w0 Hin. simpl in Hin.
  apply elem_of_cons in Hin as [->|Hin]; [reflexivity|].
  apply elem_of_cons in Hin as [->|Hin]; [reflexivity|].
  now apply elem_of_nil in Hin.
Defined.

(** ** A logger on a buffer *)

(** One leveled call on a logger whose handler writes to a buffer. *)
Lemma perform_on_buffer (l : logger) (buffer : io_Writer)
  (c : Leveled * string * list value) (w : World) :
  exists w',
    perform (logger_SetHandler l (WriterHandler_Handler
                                    (NewWriterHandler buffer))) c w
    = Returned w'
    /\ stream w' buffer
       = stream w buffer
           ++ lineOf (logger_SetHandler l (WriterHandler_Handler
                                             (NewWriterHandler buffer)))
                (clock w) c
    /\ (forall wr, wr <> buffer -> stream w' wr = stream w wr)
    /\ syslogd w' = syslogd w /\ clock w' = clock w
    /\ callstack w' = callstack w.
Proof.
  destruct c as [[m format] args]. unfold perform, lineOf.
  rewrite call_unfold. simpl.
  destruct (logger_Level l >=? level_of m).
  - destruct (logger_log_delivers
                (logger_SetHandler l (WriterHandler_Handler
                                        (NewWriterHandler buffer)))
                (level_of m) format args w) as (file & line & ->).
    eexists. split; [reflexivity|]. simpl. repeat split.
    + apply stream_io_Write.
    + intros wr Hne. apply stream_io_Write_ne. congruence.
  - exists w. rewrite append_nil_r. repeat split.
Qed.

(** X14: after [SetHandler] with a writer handler, leveled calls made one
    after the other all return, and the buffer has grown by the lines of
    the calls the threshold lets through, in the order of the calls;
    what the buffer held before is kept, and the other writers and the
    syslog daemon are as before. *)
Theorem calls_append_in_order
  (l : logger) (buffer : io_Writer)
  (calls : list (Leveled * string * list value)) (w : World) :
  exists w',
    inTurn (map (perform (logger_SetHandler l
                            (WriterHandler_Handler
                               (NewWriterHandler buffer)))) calls) w
    = Returned w'
    /\ stream w' buffer
       = stream w buffer
           ++ joinLines
                (map (lineOf (logger_SetHandler l
                                (WriterHandler_Handler
                                   (NewWriterHandler buffer))) (clock w))
                   calls)
    /\ (forall wr, wr <> buffer -> stream w' wr = stream w wr)
    /\ syslogd w' = syslogd w.
Proof.
  revert w. induction calls as [|c calls IH]; intros w.
  - exists w. simpl. rewrite append_nil_r. repeat split.
  - destruct (perform_on_buffer l buffer c w)
      as (w1 & Hcall & Hbuf & Hothers & Hsys & Hclock & _).
    destruct (IH w1) as (w' & Hrest & Hbuf' & Hothers' & Hsys').
    exists w'. simpl. rewrite Hcall. simpl. repeat split.
    + exact Hrest.
    + rewrite Hbuf', Hbuf, Hclock. apply append_assoc.
    + intros wr Hne. rewrite Hothers' by assumption. now apply Hothers.
    + congruence.
Qed.

Example three_calls_two_lines :
  forall w',
    inTurn (map (perform (svc 7))
              [(Info, "start %s", [VString "ok"]);
               (Debug, "tick", []);
               (Error, "down", [])]) world0
    = Returned w' ->
    stream w' 7
    = "2024-03-09 12:00:05 svc INFO     start ok" ++ LF
        ++ "2024-03-09 12:00:05 svc ERROR    down" ++ LF.
Proof. intros w' [= <-]. vm_compute. reflexivity. Qed.
